(** * creative-career-os: the knowledge block manager and the toolkit converter

    A shallow embedding of [tools/knowledge-block-manager/manager.py] and
    [tools/toolkit-converter/converter.py], the properties of the written
    specification that concern them, and further properties read off the
    code: its errors and edge cases, the invariants of the store, round
    trips, and how the operations compose.

    Conventions of the embedding.
    - A Python [str] is the list of its code points ([pystr]).  Literals are
      written as Rocq strings and decoded from UTF-8 by [py].
    - Character classification follows CPython for white space
      ([str.isspace], [str.split], [str.strip], [\s]); case mapping
      ([str.lower]) and decimal digits ([int], [\d]) are the ASCII ones, other
      code points being left unchanged, respectively not digits.
    - A [float] is the rational it denotes; rounding is not modelled.
    - The data directory is a two-level map: directory name, then file name,
      to the file's content.  A file is either not decodable as JSON or holds
      the value [json.load] returns for it; [json.dump] followed by
      [json.load] is the identity on values.  Directory and file names are
      opaque keys (no path separators inside them).
    - Stateful code runs in a state-and-exception monad over the world (the
      file system and the clock); an exception leaves the world as it was
      when it was raised. *)

From Stdlib Require Import ZArith NArith QArith String Ascii List Lia.
From Stdlib Require Import DecimalN DecimalZ.
From stdpp Require Import gmap strings list fin_maps.

Local Open Scope N_scope.
Local Open Scope list_scope.

(** ** Python text *)

Module Py.

Definition pystr := list N.

(** UTF-8 decoding of a Rocq string literal into code points. *)
Fixpoint utf8_decode (bs : list N) : pystr :=
  match bs with
  | [] => []
  | b0 :: r0 =>
    if b0 <? 128 then b0 :: utf8_decode r0
    else match r0 with
    | [] => [b0]
    | b1 :: r1 =>
      if b0 <? 224 then ((b0 - 192) * 64 + (b1 - 128)) :: utf8_decode r1
      else match r1 with
      | [] => [b0; b1]
      | b2 :: r2 =>
        if b0 <? 240
        then ((b0 - 224) * 4096 + (b1 - 128) * 64 + (b2 - 128)) :: utf8_decode r2
        else match r2 with
        | [] => [b0; b1; b2]
        | b3 :: r3 =>
          ((b0 - 240) * 262144 + (b1 - 128) * 4096 + (b2 - 128) * 64 + (b3 - 128))
            :: utf8_decode r3
        end
      end
    end
  end.

Definition py (s : string) : pystr :=
  utf8_decode (List.map N_of_ascii (list_ascii_of_string s)).

(** [str.isspace] on one code point. *)
Definition is_space (c : N) : bool :=
  ((9 <=? c) && (c <=? 13)) || ((28 <=? c) && (c <=? 32))
  || (c =? 133) || (c =? 160) || (c =? 5760)
  || ((8192 <=? c) && (c <=? 8202))
  || (c =? 8232) || (c =? 8233) || (c =? 8239) || (c =? 8287) || (c =? 12288).

Definition is_digit (c : N) : bool := (48 <=? c) && (c <=? 57).

Definition lower_char (c : N) : N :=
  if (65 <=? c) && (c <=? 90) then c + 32 else c.

(** [s.lower()] *)
Definition lower (s : pystr) : pystr := List.map lower_char s.

(** The line feed. *)
Definition nl : pystr := [10].

Definition str_eqb (a b : pystr) : bool := bool_decide (a = b).

(** [s.startswith(t)] *)
Fixpoint startswith (t s : pystr) : bool :=
  match t, s with
  | [], _ => true
  | _ :: _, [] => false
  | a :: t', b :: s' => (a =? b) && startswith t' s'
  end.

(** [s.endswith(t)] *)
Definition endswith (t s : pystr) : bool := startswith (reverse t) (reverse s).

(** [t in s] *)
Fixpoint contains (t s : pystr) : bool :=
  startswith t s || match s with [] => false | _ :: s' => contains t s' end.

(** [s.split()]: the maximal runs of characters that are not white space.
    [w] is the run being read, in reverse. *)
Definition flush (w : pystr) : list pystr :=
  match w with [] => [] | _ :: _ => [reverse w] end.

Fixpoint split_go (w : pystr) (s : pystr) : list pystr :=
  match s with
  | [] => flush w
  | c :: s' =>
    if is_space c then flush w ++ split_go [] s' else split_go (c :: w) s'
  end.

Definition split (s : pystr) : list pystr := split_go [] s.

(** [s.split(sep)] for a one-character separator: empty fields are kept. *)
Fixpoint split_on_go (sep : N) (w : pystr) (s : pystr) : list pystr :=
  match s with
  | [] => [reverse w]
  | c :: s' =>
    if c =? sep then reverse w :: split_on_go sep [] s'
    else split_on_go sep (c :: w) s'
  end.

Definition split_on (sep : N) (s : pystr) : list pystr := split_on_go sep [] s.

(** [sep.join(l)] *)
Fixpoint join (sep : pystr) (l : list pystr) : pystr :=
  match l with
  | [] => []
  | [a] => a
  | a :: l' => a ++ sep ++ join sep l'
  end.

(** [s.lstrip(chars)], [s.rstrip(chars)], [s.strip(chars)], the set of
    characters being given by its membership test. *)
Fixpoint lstrip_by (p : N → bool) (s : pystr) : pystr :=
  match s with
  | [] => []
  | c :: s' => if p c then lstrip_by p s' else s
  end.

Definition rstrip_by (p : N → bool) (s : pystr) : pystr :=
  reverse (lstrip_by p (reverse s)).

Definition strip_by (p : N → bool) (s : pystr) : pystr :=
  rstrip_by p (lstrip_by p s).

(** [s.strip()] *)
Definition strip (s : pystr) : pystr := strip_by is_space s.

(** *** Integers as text *)

Fixpoint chars_of_uint (d : Decimal.uint) : pystr :=
  match d with
  | Decimal.Nil => []
  | Decimal.D0 d => 48 :: chars_of_uint d
  | Decimal.D1 d => 49 :: chars_of_uint d
  | Decimal.D2 d => 50 :: chars_of_uint d
  | Decimal.D3 d => 51 :: chars_of_uint d
  | Decimal.D4 d => 52 :: chars_of_uint d
  | Decimal.D5 d => 53 :: chars_of_uint d
  | Decimal.D6 d => 54 :: chars_of_uint d
  | Decimal.D7 d => 55 :: chars_of_uint d
  | Decimal.D8 d => 56 :: chars_of_uint d
  | Decimal.D9 d => 57 :: chars_of_uint d
  end.

(** [str(z)] for an [int] *)
Definition str_of_int (z : Z) : pystr :=
  match Z.to_int z with
  | Decimal.Pos d => chars_of_uint d
  | Decimal.Neg d => 45 :: chars_of_uint d
  end.

Definition cons_digit (c : N) (d : Decimal.uint) : Decimal.uint :=
  if c =? 48 then Decimal.D0 d else if c =? 49 then Decimal.D1 d
  else if c =? 50 then Decimal.D2 d else if c =? 51 then Decimal.D3 d
  else if c =? 52 then Decimal.D4 d else if c =? 53 then Decimal.D5 d
  else if c =? 54 then Decimal.D6 d else if c =? 55 then Decimal.D7 d
  else if c =? 56 then Decimal.D8 d else Decimal.D9 d.

(** The digits of an integer literal: one or more digits, single underscores
    allowed between digits.  [after_digit] tells whether the previous
    character was a digit. *)
Fixpoint uint_of_chars (after_digit : bool) (s : pystr) : option Decimal.uint :=
  match s with
  | [] => if after_digit then Some Decimal.Nil else None
  | c :: s' =>
    if is_digit c then cons_digit c <$> uint_of_chars true s'
    else if (c =? 95) && after_digit then uint_of_chars false s'
    else None
  end.

(** [int(s)] for a [str]: [None] stands for [ValueError]. *)
Definition int_of_str (s : pystr) : option Z :=
  match strip s with
  | [] => None
  | c :: s' =>
    if c =? 45 then (λ d, Z.of_int (Decimal.Neg d)) <$> uint_of_chars false s'
    else if c =? 43 then (λ d, Z.of_int (Decimal.Pos d)) <$> uint_of_chars false s'
    else (λ d, Z.of_int (Decimal.Pos d)) <$> uint_of_chars false (c :: s')
  end.

(** The values [json.load] produces and callers pass in.  A [dict] keeps its
    keys (UTF-8 encoded) in a finite map; the insertion order of a Python
    dict is not recorded. *)
#[warnings="-register-all"]
Inductive pyval :=
| VNone
| VBool (b : bool)
| VInt (z : Z)
| VFloat (q : Q)
| VStr (s : pystr)
| VList (l : list pyval)
| VDict (d : gmap string pyval).

Abbreviation dict := (gmap string pyval).

Inductive exn :=
| ValueError (msg : pystr)   (* raised by the program itself *)
| ValueErrorPy               (* raised by [int()] or by tuple unpacking *)
| KeyError (key : string)
| TypeError
| AttributeError
| IndexError
| JSONDecodeError
| FileNotFoundError.

Inductive outcome (A : Type) :=
| Ret (a : A)
| Raise (e : exn).
Arguments Ret {A} a.
Arguments Raise {A} e.

#[global] Instance outcome_ret : MRet outcome := @Ret.
#[global] Instance outcome_bind : MBind outcome := λ A B f m,
  match m with Ret a => f a | Raise e => Raise e end.

End Py.

Import Py.

(** ** Regular expressions

    The fragment of Python's [re] the two programs use, with its
    backtracking order: alternatives are tried in the order CPython tries
    them and the first complete match wins. *)

Module Re.

Inductive regex :=
| Bol (multiline : bool)                           (* [^] *)
| Lit (s : pystr)                                  (* literal text *)
| Many (greedy : bool) (min : nat) (p : N → bool)  (* a quantified class *)
| Plus (r : regex)                                 (* [(r)+], greedy *)
| Group (r : regex)                                (* capture group 1 *)
| Seq (r1 r2 : regex).

(** Where the matcher stands: the text before the position (nearest
    character first), the text after it, and what group 1 last captured. *)
Record cursor := Cursor {
  before : pystr;
  rest : pystr;
  group1 : option pystr
}.

(** The text between two positions of the same string. *)
Definition between (b b' : pystr) : pystr :=
  reverse (take (length b' - length b) b').

Fixpoint eat (s before rest : pystr) : option (pystr * pystr) :=
  match s with
  | [] => Some (before, rest)
  | a :: s' =>
    match rest with
    | [] => None
    | b :: rest' => if a =? b then eat s' (b :: before) rest' else None
    end
  end.

Definition or_else {R} (x y : option R) : option R :=
  match x with Some _ => x | None => y end.

Fixpoint many {R} (greedy : bool) (min : nat) (p : N → bool) (g : option pystr)
    (k : cursor → option R) (n : nat) (before rest : pystr) : option R :=
  let stop := if (min <=? n)%nat then k (Cursor before rest g) else None in
  match rest with
  | [] => stop
  | c :: rest' =>
    if p c then
      if greedy then or_else (many greedy min p g k (S n) (c :: before) rest') stop
      else or_else stop (many greedy min p g k (S n) (c :: before) rest')
    else stop
  end.

(** The loop of [(r)+]: [step] matches [r] once.  Every turn consumes a
    character, so [fuel], the length of the text ahead, bounds the turns. *)
Fixpoint plus_loop {R} (step : cursor → (cursor → option R) → option R)
    (k : cursor → option R) (fuel : nat) (c : cursor) : option R :=
  step c (λ c',
    match fuel with
    | O => k c'
    | S fuel' => or_else (plus_loop step k fuel' c') (k c')
    end).

(** [run r c k]: the first way, in backtracking order, to match [r] from [c]
    that the continuation [k] accepts. *)
Fixpoint run {R} (r : regex) (c : cursor) (k : cursor → option R) : option R :=
  match r with
  | Bol multiline =>
    match before c with
    | [] => k c
    | x :: _ => if multiline && (x =? 10) then k c else None
    end
  | Lit s =>
    match eat s (before c) (rest c) with
    | Some (b, r') => k (Cursor b r' (group1 c))
    | None => None
    end
  | Many greedy min p => many greedy min p (group1 c) k 0 (before c) (rest c)
  | Plus r' => plus_loop (run r') k (length (rest c)) c
  | Group r' =>
    run r' c (λ c',
      k (Cursor (before c') (rest c') (Some (between (before c) (before c')))))
  | Seq r1 r2 => run r1 c (λ c', run r2 c' k)
  end.

Definition match_at (r : regex) (before rest : pystr) : option cursor :=
  run r (Cursor before rest None) Some.

(** A match: where it starts and the cursor at its end. *)
Record found := Found {
  start : pystr;   (* the text before the match, nearest character first *)
  stop : cursor
}.

Definition group0 (m : found) : pystr := between (start m) (before (stop m)).

(** [re.search(r, s)]: the leftmost position with a match. *)
Fixpoint search_go (r : regex) (before rest : pystr) : option found :=
  match match_at r before rest with
  | Some e => Some (Found before e)
  | None =>
    match rest with
    | [] => None
    | c :: rest' => search_go r (c :: before) rest'
    end
  end.

Definition search (r : regex) (s : pystr) : option found := search_go r [] s.

(** [re.sub(r, repl, s)] for a replacement without group references.
    [skip] counts the characters of the current match still to be dropped.
    A match of no characters leaves the next character in place. *)
Fixpoint sub_go (r : regex) (repl : pystr) (skip : nat) (seen text : pystr)
  : pystr :=
  match skip with
  | S skip' =>
    match text with
    | [] => []
    | c :: text' => sub_go r repl skip' (c :: seen) text'
    end
  | O =>
    match match_at r seen text with
    | Some e =>
      match (length (before e) - length seen)%nat, text with
      | S n, c :: text' => repl ++ sub_go r repl n (c :: seen) text'
      | O, c :: text' => repl ++ c :: sub_go r repl 0 (c :: seen) text'
      | _, [] => repl
      end
    | None =>
      match text with
      | [] => []
      | c :: text' => c :: sub_go r repl 0 (c :: seen) text'
      end
    end
  end.

Definition sub (r : regex) (repl s : pystr) : pystr := sub_go r repl 0 [] s.

(** The concatenation of the pieces of a pattern. *)
Definition cat (rs : list regex) : regex := foldr Seq (Lit []) rs.

Definition dot (c : N) : bool := negb (c =? 10).

Definition is_slug_char (c : N) : bool :=
  ((97 <=? c) && (c <=? 122)) || ((48 <=? c) && (c <=? 57)).

(** [[^a-z0-9]+] *)
Definition non_slug_run : regex := Many true 1 (λ c, negb (is_slug_char c)).

(** What [re.sub(r'[^a-z0-9]+', '-', s)] comes to, as a scan: each maximal
    run of other characters becomes one dash.  [in_run] tells whether the
    previous character belonged to such a run. *)
Fixpoint collapse (in_run : bool) (s : pystr) : pystr :=
  match s with
  | [] => []
  | c :: s' =>
    if is_slug_char c then c :: collapse false s'
    else if in_run then collapse true s'
    else 45 :: collapse true s'
  end.

End Re.

(** ** The knowledge block manager: [manager.py] *)

Module Manager.

(** A file of the data directory. *)
Inductive file :=
| Corrupt
| Json (v : pyval).

Record world := World {
  fs : gmap pystr (gmap pystr file);
  ticks : nat   (* how often the clock has been read *)
}.

Definition M (A : Type) : Type := world → outcome A * world.

#[global] Instance M_ret : MRet M := λ A a w, (Ret a, w).
#[global] Instance M_bind : MBind M := λ A B f m w,
  match m w with
  | (Ret a, w') => f a w'
  | (Raise e, w') => (Raise e, w')
  end.

Definition raise {A} (e : exn) : M A := λ w, (Raise e, w).
Definition lift {A} (o : outcome A) : M A := λ w, (o, w).

(** [schema.json] is not part of the sources read here; it is a parameter:
    its [required] list and, in order, the [properties] with the [type] name
    each declares, if any. *)
Record schema_t := Schema {
  required : list string;
  properties : list (string * option pystr)
}.

(** What the manager takes from its surroundings. *)
Record env := Env {
  schema : schema_t;
  md5_hexdigest : pystr → pystr;   (* [hashlib.md5(s.encode()).hexdigest()] *)
  clock : nat → pystr;             (* [isoformat()] of the n-th clock reading *)
  repr : pyval → pystr;            (* [str()] of a float, a list or a dict *)
  json_dumps : list pyval → pystr  (* [json.dumps(_, ensure_ascii=False, indent=2)] *)
}.

Definition DOMAINS : list pystr :=
  [py "defense"; py "proactive"; py "mindset"; py "efficiency"; py "relationship"].

(** [not v] is [negb (truthy v)]. *)
Definition truthy (v : pyval) : bool :=
  match v with
  | VNone => false
  | VBool b => b
  | VInt z => negb (z =? 0)%Z
  | VFloat q => negb (Qeq_bool q 0)
  | VStr s => match s with [] => false | _ :: _ => true end
  | VList l => match l with [] => false | _ :: _ => true end
  | VDict d => match map_to_list d with [] => false | _ :: _ => true end
  end.

(** [f"{v}"] *)
Definition format_value (E : env) (v : pyval) : pystr :=
  match v with
  | VNone => py "None"
  | VBool true => py "True"
  | VBool false => py "False"
  | VInt z => str_of_int z
  | VStr s => s
  | VFloat _ | VList _ | VDict _ => repr E v
  end.

(** [datetime.datetime.now().isoformat()] *)
Definition now (E : env) : M pystr := λ w,
  (Ret (clock E (ticks w)), World (fs w) (S (ticks w))).

(** [re.sub(r'[^a-z0-9]+', '-', title.lower()).strip('-')[:30]] *)
Definition slug (title : pystr) : pystr :=
  take 30 (strip_by (N.eqb 45) (Re.sub Re.non_slug_run (py "-") (lower title))).

Definition generate_id (E : env) (title : pyval) : M pystr :=
  timestamp ← now E;
  let combined := format_value E title ++ py "_" ++ timestamp in
  let short_hash := take 8 (md5_hexdigest E combined) in
  match title with
  | VStr t => mret (slug t ++ py "_" ++ short_hash)
  | _ => raise AttributeError
  end.

Definition is_instance (type_name : pystr) (v : pyval) : bool :=
  if str_eqb type_name (py "string") then
    match v with VStr _ => true | _ => false end
  else if str_eqb type_name (py "number") then
    match v with VInt _ | VFloat _ | VBool _ => true | _ => false end
  else if str_eqb type_name (py "integer") then
    match v with VInt _ | VBool _ => true | _ => false end
  else if str_eqb type_name (py "boolean") then
    match v with VBool _ => true | _ => false end
  else if str_eqb type_name (py "array") then
    match v with VList _ => true | _ => false end
  else if str_eqb type_name (py "object") then
    match v with VDict _ => true | _ => false end
  else true.

Definition type_phrase (type_name : pystr) : pystr :=
  if str_eqb type_name (py "string") then py "a string"
  else if str_eqb type_name (py "number") then py "a number"
  else if str_eqb type_name (py "integer") then py "an integer"
  else if str_eqb type_name (py "boolean") then py "a boolean"
  else if str_eqb type_name (py "array") then py "an array"
  else py "an object".

Fixpoint check_required (fields : list string) (block_data : dict) : outcome unit :=
  match fields with
  | [] => Ret ()
  | field :: fields' =>
    match block_data !! field with
    | None => Raise (ValueError (py "Missing required field: " ++ py field))
    | Some _ => check_required fields' block_data
    end
  end.

Fixpoint check_types (props : list (string * option pystr)) (block_data : dict)
  : outcome unit :=
  match props with
  | [] => Ret ()
  | (field, ty) :: props' =>
    match block_data !! field, ty with
    | Some value, Some expected_type =>
      if is_instance expected_type value then check_types props' block_data
      else Raise (ValueError (py "Field " ++ py field ++ py " should be "
                              ++ type_phrase expected_type))
    | _, _ => check_types props' block_data
    end
  end.

Definition _validate_block (E : env) (block_data : dict) : outcome unit :=
  _ ← check_required (required (schema E)) block_data;
  check_types (properties (schema E)) block_data.

(** [open(path, 'w')] followed by [json.dump]: the directory has to exist. *)
Definition write_json (d f : pystr) (v : pyval) : M unit := λ w,
  match fs w !! d with
  | None => (Raise FileNotFoundError, w)
  | Some dir => (Ret (), World (<[d := <[f := Json v]> dir]> (fs w)) (ticks w))
  end.

(** The file [d/f], if there is one. *)
Definition file_at (w : world) (d f : pystr) : option file :=
  fs w !! d ≫= (.!! f).

(** [os.path.exists(path)] *)
Definition path_exists (d f : pystr) : M bool := λ w,
  (Ret (bool_decide (is_Some (file_at w d f))), w).

(** [open(path, 'r')] followed by [json.load] *)
Definition read_json (d f : pystr) : M pyval := λ w,
  match file_at w d f with
  | None => (Raise FileNotFoundError, w)
  | Some Corrupt => (Raise JSONDecodeError, w)
  | Some (Json v) => (Ret v, w)
  end.

Definition remove (d f : pystr) : M unit := λ w,
  match fs w !! d with
  | None => (Raise FileNotFoundError, w)
  | Some dir => (Ret (), World (<[d := delete f dir]> (fs w)) (ticks w))
  end.

Definition json_name (E : env) (block_id : pyval) : pystr :=
  format_value E block_id ++ py ".json".

Definition _save_block (E : env) (block_data : dict) : M unit :=
  match block_data !! "domain" with
  | None => raise (KeyError "domain")
  | Some domain =>
    match block_data !! "id" with
    | None => raise (KeyError "id")
    | Some block_id =>
      match domain with
      | VStr d => write_json d (json_name E block_id) (VDict block_data)
      | _ => raise TypeError
      end
    end
  end.

Definition default_field (k : string) (v : pyval) (block_data : dict) : dict :=
  match block_data !! k with
  | None => <[k := v]> block_data
  | Some _ => block_data
  end.

(** Lines 57-59 of [create_block]: the id, when none is given. *)
Definition ensure_id (E : env) (block_data : dict) : M dict :=
  match block_data !! "id" with
  | Some _ => mret block_data
  | None =>
    match block_data !! "title" with
    | None => raise (KeyError "title")
    | Some title =>
      new_id ← generate_id E title;
      mret (<["id" := VStr new_id]> block_data)
    end
  end.

(** Lines 62-83 of [create_block]: the timestamps and the default values. *)
Definition fill_defaults (now_ : pystr) (block_data : dict) : dict :=
  let block_data := default_field "created_at" (VStr now_) block_data in
  let block_data := <["updated_at" := VStr now_]> block_data in
  let block_data := default_field "version" (VStr (py "1.0")) block_data in
  let block_data := default_field "usage_count" (VInt 0) block_data in
  let block_data := default_field "rating" (VFloat 0) block_data in
  let block_data := default_field "feedback" (VList []) block_data in
  let block_data := default_field "variations" (VList []) block_data in
  let block_data := default_field "examples" (VList []) block_data in
  let block_data := default_field "tags" (VList []) block_data in
  default_field "related_blocks" (VList []) block_data.

Definition create_block (E : env) (block_data : dict) : M pyval :=
  block_data ← ensure_id E block_data;
  now_ ← now E;
  let block_data := fill_defaults now_ block_data in
  _ ← lift (_validate_block E block_data);
  _ ← _save_block E block_data;
  mret (VDict block_data).

Fixpoint get_block_scan (E : env) (block_id : pystr) (domains : list pystr)
  : M pyval :=
  match domains with
  | [] => mret VNone
  | domain :: domains' =>
    found ← path_exists domain (block_id ++ py ".json");
    if found : bool then read_json domain (block_id ++ py ".json")
    else get_block_scan E block_id domains'
  end.

Definition get_block (E : env) (block_id : pystr) (domain : option pystr)
  : M pyval :=
  match domain with
  | Some (c :: d) =>
    found ← path_exists (c :: d) (block_id ++ py ".json");
    if found : bool then read_json (c :: d) (block_id ++ py ".json")
    else mret VNone
  | _ => get_block_scan E block_id DOMAINS
  end.

(** [major, minor = map(int, version.split('.'))] *)
Definition parse_version (version : pystr) : outcome (Z * Z) :=
  match split_on 46 version with
  | [a; b] =>
    match int_of_str a, int_of_str b with
    | Some major, Some minor => Ret (major, minor)
    | _, _ => Raise ValueErrorPy
    end
  | _ => Raise ValueErrorPy
  end.

Definition format_version (major minor : Z) : pystr :=
  str_of_int major ++ py "." ++ str_of_int minor.

Definition bump_version (block : dict) : outcome dict :=
  match block !! "version" with
  | None => Ret block
  | Some (VStr version) =>
    '(major, minor) ← parse_version version;
    Ret (<["version" := VStr (format_version major (minor + 1))]> block)
  | Some _ => Raise AttributeError
  end.

Definition update_block (E : env) (block_id : pystr) (updates : dict) : M pyval :=
  block ← get_block E block_id None;
  if negb (truthy block) then mret VNone
  else match block with
  | VDict block =>
    let block := updates ∪ block in
    now_ ← now E;
    let block := <["updated_at" := VStr now_]> block in
    block ← lift (bump_version block);
    _ ← lift (_validate_block E block);
    _ ← _save_block E block;
    mret (VDict block)
  | _ => raise AttributeError
  end.

Definition delete_block (E : env) (block_id : pystr) : M bool :=
  block ← get_block E block_id None;
  if negb (truthy block) then mret false
  else match block with
  | VDict block =>
    match block !! "domain" with
    | None => raise (KeyError "domain")
    | Some (VStr domain) =>
      found ← path_exists domain (block_id ++ py ".json");
      if found : bool then
        _ ← remove domain (block_id ++ py ".json");
        mret true
      else mret false
    | Some _ => raise TypeError
    end
  | _ => raise TypeError
  end.

(** [block.get(k, '').lower()] *)
Definition get_lower (block : dict) (k : string) : outcome pystr :=
  match block !! k with
  | None => Ret []
  | Some (VStr s) => Ret (lower s)
  | Some _ => Raise AttributeError
  end.

Definition as_str (v : pyval) : option pystr :=
  match v with VStr s => Some s | _ => None end.

(** [' '.join(tags)]: [tags] is iterated; a [str] yields its characters, a
    [dict] its keys (here in the order of the map). *)
Definition join_tags (tags : pyval) : outcome pystr :=
  match tags with
  | VList l =>
    match mapM as_str l with
    | Some strs => Ret (join (py " ") strs)
    | None => Raise TypeError
    end
  | VStr s => Ret (join (py " ") ((λ c, [c]) <$> s))
  | VDict d => Ret (join (py " ") ((λ kv, py kv.1) <$> map_to_list d))
  | _ => Raise TypeError
  end.

Definition search_text (block : pyval) : outcome pystr :=
  match block with
  | VDict block =>
    title ← get_lower block "title";
    content ← get_lower block "content";
    tags ← join_tags (default (VList []) (block !! "tags"));
    Ret (title ++ py " " ++ content ++ py " " ++ tags)
  | _ => Raise AttributeError
  end.

(** [all(term in search_text for term in search_terms)] *)
Definition block_matches (search_terms : list pystr) (block : pyval) : outcome bool :=
  text ← search_text block;
  Ret (forallb (λ term, contains term text) search_terms).

(** The loop over [os.listdir(domain_dir)]. *)
Fixpoint search_files (search_terms : list pystr) (files : list (pystr * file))
    (results : list pyval) : outcome (list pyval) :=
  match files with
  | [] => Ret results
  | (filename, content) :: files' =>
    if negb (endswith (py ".json") filename) then
      search_files search_terms files' results
    else match content with
    | Corrupt => search_files search_terms files' results
    | Json block =>
      hit ← block_matches search_terms block;
      search_files search_terms files' (if hit : bool then results ++ [block] else results)
    end
  end.

(** The loop over [domains]. *)
Fixpoint search_domains (tree : gmap pystr (gmap pystr file))
    (search_terms : list pystr) (domains : list pystr) (results : list pyval)
  : outcome (list pyval) :=
  match domains with
  | [] => Ret results
  | domain :: domains' =>
    match tree !! domain with
    | None => search_domains tree search_terms domains' results
    | Some dir =>
      results ← search_files search_terms (map_to_list dir) results;
      search_domains tree search_terms domains' results
    end
  end.

Definition search_blocks (E : env) (query : pystr) (domain : option pystr)
  : M (list pyval) := λ w,
  let search_terms := split (lower query) in
  let domains :=
    match domain with
    | Some (c :: d) => [c :: d]
    | _ => DOMAINS
    end in
  (search_domains (fs w) search_terms domains [], w).

(** ['rating' in f] *)
Definition has_rating (f : pyval) : outcome bool :=
  match f with
  | VDict d => Ret (bool_decide (is_Some (d !! "rating")))
  | VStr s => Ret (contains (py "rating") s)
  | VList l =>
    Ret (existsb (λ v, match v with VStr s => str_eqb s (py "rating") | _ => false end) l)
  | _ => Raise TypeError
  end.

(** [f['rating']] *)
Definition rating_of (f : pyval) : outcome pyval :=
  match f with
  | VDict d =>
    match d !! "rating" with
    | Some r => Ret r
    | None => Raise (KeyError "rating")
    end
  | _ => Raise TypeError
  end.

(** [[f['rating'] for f in feedback if 'rating' in f]] *)
Fixpoint collect_ratings (feedback : list pyval) : outcome (list pyval) :=
  match feedback with
  | [] => Ret []
  | f :: feedback' =>
    has ← has_rating f;
    if has : bool then
      r ← rating_of f;
      rs ← collect_ratings feedback';
      Ret (r :: rs)
    else collect_ratings feedback'
  end.

Definition number (v : pyval) : option Q :=
  match v with
  | VInt z => Some (inject_Z z)
  | VBool b => Some (inject_Z (Z.b2z b))
  | VFloat q => Some q
  | _ => None
  end.

(** [sum(ratings)], from the start value 0 *)
Fixpoint sum_from (acc : Q) (ratings : list pyval) : outcome Q :=
  match ratings with
  | [] => Ret acc
  | r :: ratings' =>
    match number r with
    | Some q => sum_from (acc + q)%Q ratings'
    | None => Raise TypeError
    end
  end.

Definition mean (ratings : list pyval) : outcome Q :=
  total ← sum_from 0%Q ratings;
  Ret (Qred (total / inject_Z (Z.of_nat (length ratings))))%Q.

Definition add_feedback (E : env) (block_id : pystr) (feedback : dict) : M pyval :=
  block ← get_block E block_id None;
  if negb (truthy block) then mret VNone
  else
    feedback_id ← generate_id E (VStr (py "feedback_" ++ block_id));
    let feedback := <["id" := VStr feedback_id]> feedback in
    date ← now E;
    let feedback := <["date" := VStr date]> feedback in
    match block with
    | VDict block =>
      let block := default_field "feedback" (VList []) block in
      match block !! "feedback" with
      | Some (VList entries) =>
        let entries := entries ++ [VDict feedback] in
        let block := <["feedback" := VList entries]> block in
        ratings ← lift (collect_ratings entries);
        block ←
          match ratings with
          | [] => mret block
          | _ :: _ =>
            m ← lift (mean ratings);
            mret (<["rating" := VFloat m]> block)
          end;
        _ ← _save_block E block;
        mret (VDict block)
      | _ => raise AttributeError
      end
    | _ => raise TypeError
    end.

(** [v + 1] *)
Definition add_one (v : pyval) : outcome pyval :=
  match v with
  | VInt z => Ret (VInt (z + 1))
  | VBool b => Ret (VInt (Z.b2z b + 1))
  | VFloat q => Ret (VFloat (Qred (q + 1)))
  | _ => Raise TypeError
  end.

Definition increment_usage (E : env) (block_id : pystr) : M pyval :=
  block ← get_block E block_id None;
  if negb (truthy block) then mret VNone
  else match block with
  | VDict block =>
    count ← lift (add_one (default (VInt 0) (block !! "usage_count")));
    let block := <["usage_count" := count]> block in
    _ ← _save_block E block;
    mret (VDict block)
  | _ => raise AttributeError
  end.

(** The files of one directory that [export_blocks] keeps. *)
Fixpoint load_files (files : list (pystr * file)) : list pyval :=
  match files with
  | [] => []
  | (filename, content) :: files' =>
    if negb (endswith (py ".json") filename) then load_files files'
    else match content with
    | Corrupt => load_files files'
    | Json block => block :: load_files files'
    end
  end.

Fixpoint load_domains (tree : gmap pystr (gmap pystr file)) (domains : list pystr)
  : list pyval :=
  match domains with
  | [] => []
  | domain :: domains' =>
    match tree !! domain with
    | None => load_domains tree domains'
    | Some dir => load_files (map_to_list dir) ++ load_domains tree domains'
    end
  end.

(** [f"{block.get(k, dflt)}"] *)
Definition get_format (E : env) (block : dict) (k : string) (dflt : pystr) : pystr :=
  match block !! k with
  | Some v => format_value E v
  | None => dflt
  end.

(** One turn of the markdown loop. *)
Definition markdown_block (E : env) (markdown : pystr) (block : pyval)
  : outcome pystr :=
  match block with
  | VDict block =>
    let markdown := markdown ++ py "## " ++ get_format E block "title" (py "Untitled") ++ nl in
    let markdown := markdown ++ py "ID: " ++ get_format E block "id" (py "N/A") ++ nl in
    let markdown := markdown ++ py "Domain: " ++ get_format E block "domain" (py "N/A") ++ nl in
    let markdown := markdown ++ py "Type: " ++ get_format E block "type" (py "N/A") ++ nl in
    let markdown := markdown ++ py "Rating: " ++ get_format E block "rating" (py "N/A") ++ nl in
    let markdown := markdown ++ py "Usage: " ++ get_format E block "usage_count" (py "0") ++ nl ++ nl in
    let markdown := markdown ++ get_format E block "content" (py "No content") ++ nl ++ nl in
    let markdown := markdown ++ py "---" ++ nl ++ nl in
    Ret markdown
  | _ => Raise AttributeError
  end.

Fixpoint markdown_loop (E : env) (markdown : pystr) (all_blocks : list pyval)
  : outcome pystr :=
  match all_blocks with
  | [] => Ret markdown
  | block :: all_blocks' =>
    markdown ← markdown_block E markdown block;
    markdown_loop E markdown all_blocks'
  end.

Definition export_blocks (E : env) (format : pystr) : M pystr := λ w,
  let all_blocks := load_domains (fs w) DOMAINS in
  if str_eqb format (py "json") then (Ret (json_dumps E all_blocks), w)
  else if str_eqb format (py "markdown") then
    (markdown_loop E (py "# Creative-Career-OS Knowledge Blocks" ++ nl ++ nl) all_blocks, w)
  else (Raise (ValueError (py "Unsupported format: " ++ format)), w).

(** [get_blocks_by_domain]: the loop of [export_blocks] over one directory. *)
Definition get_blocks_by_domain (E : env) (domain : pystr) : M (list pyval) := λ w,
  match fs w !! domain with
  | None => (Ret [], w)
  | Some dir => (Ret (load_files (map_to_list dir)), w)
  end.

(** [os.makedirs(domain_dir)] unless the directory exists. *)
Definition make_dir (domain : pystr) : M unit := λ w,
  match fs w !! domain with
  | Some _ => (Ret (), w)
  | None => (Ret (), World (<[domain := ∅]> (fs w)) (ticks w))
  end.

Fixpoint make_dirs (domains : list pystr) : M unit :=
  match domains with
  | [] => mret ()
  | domain :: domains' => _ ← make_dir domain; make_dirs domains'
  end.

(** [_ensure_dirs]; the data directory itself is the tree. *)
Definition _ensure_dirs : M unit := make_dirs DOMAINS.

(** *** Notions used to state the properties *)

(** Every readable block file lies where its own [domain] and [id] fields
    say.  [_save_block] writes no other kind of file once ids are strings. *)
Definition consistent (w : world) : Prop :=
  ∀ d i v, file_at w d (i ++ py ".json") = Some (Json v) →
    ∃ b, v = VDict b ∧ b !! "id" = Some (VStr i) ∧ b !! "domain" = Some (VStr d).

(** The same, as a check that can be run. *)
Definition file_ok (d f : pystr) (c : file) : bool :=
  match c with
  | Corrupt => true
  | Json v =>
    if endswith (py ".json") f then
      match v with
      | VDict b =>
        match b !! "id", b !! "domain" with
        | Some (VStr i), Some (VStr d') => str_eqb (i ++ py ".json") f && str_eqb d' d
        | _, _ => false
        end
      | _ => false
      end
    else true
  end.

Definition consistentb (w : world) : bool :=
  forallb (λ '(d, dir), forallb (λ '(f, c), file_ok d f c) (map_to_list dir))
          (map_to_list (fs w)).

(** The entry [add_feedback] appends: the caller's entry with the generated
    [id] and the [date]. *)
Definition stamped (E : env) (block_id : pystr) (feedback : dict) (w : world) : dict :=
  <["date" := VStr (clock E (S (ticks w)))]>
    (<["id" := VStr (slug (py "feedback_" ++ block_id) ++ py "_"
                     ++ take 8 (md5_hexdigest E
                          ((py "feedback_" ++ block_id) ++ py "_" ++ clock E (ticks w))))]>
       feedback).



(** The readable [.json] files of the given directories, each with its
    path: what the scans of [search_blocks] and [export_blocks] go through. *)
Definition keep (d : pystr) (fc : pystr * file) : option (pystr * pystr * pyval) :=
  match fc.2 with
  | Json v => if endswith (py ".json") fc.1 then Some (d, fc.1, v) else None
  | Corrupt => None
  end.

Definition readable_files (tree : gmap pystr (gmap pystr file)) (domains : list pystr)
  : list (pystr * pystr * pyval) :=
  d ← domains;
  match tree !! d with
  | None => []
  | Some dir => omap (keep d) (map_to_list dir)
  end.

Definition scanned (domain : option pystr) : list pystr :=
  match domain with
  | Some (c :: d) => [c :: d]
  | _ => DOMAINS
  end.

Definition hit (search_terms : list pystr) (block : pyval) : bool :=
  match block_matches search_terms block with
  | Ret true => true
  | _ => false
  end.

(** Whether [search_blocks] can form the search text of a block. *)
Definition searchable (block : pyval) : bool :=
  match search_text block with Ret _ => true | Raise _ => false end.

(** The search text in the words of the specification: the lower-cased
    title, the lower-cased content and the lower-cased tags. *)
Definition spec_search_text (title content : pystr) (tags : list pystr) : pystr :=
  lower title ++ py " " ++ lower content ++ py " " ++ join (py " ") (lower <$> tags).

Definition spec_matches (query title content : pystr) (tags : list pystr) : bool :=
  forallb (λ term, contains term (spec_search_text title content tags))
          (split (lower query)).

(** One section of the markdown export. *)
Definition section (E : env) (block : dict) : pystr :=
  py "## " ++ get_format E block "title" (py "Untitled") ++ nl
  ++ py "ID: " ++ get_format E block "id" (py "N/A") ++ nl
  ++ py "Domain: " ++ get_format E block "domain" (py "N/A") ++ nl
  ++ py "Type: " ++ get_format E block "type" (py "N/A") ++ nl
  ++ py "Rating: " ++ get_format E block "rating" (py "N/A") ++ nl
  ++ py "Usage: " ++ get_format E block "usage_count" (py "0") ++ nl ++ nl
  ++ get_format E block "content" (py "No content") ++ nl ++ nl
  ++ py "---" ++ nl ++ nl.


(** The five domain directories exist: what [_ensure_dirs] establishes when
    the manager is constructed. *)
Definition initialised (w : world) : Prop :=
  ∀ d, d ∈ DOMAINS → is_Some (fs w !! d).



(** The instances of the six type names of the schema. *)
Definition instance_of (type_name : string) (v : pyval) : Prop :=
  match type_name, v with
  | "string", VStr _ => True
  | "number", (VInt _ | VFloat _ | VBool _) => True
  | "integer", (VInt _ | VBool _) => True
  | "boolean", VBool _ => True
  | "array", VList _ => True
  | "object", VDict _ => True
  | _, _ => False
  end%string.

Definition TYPE_NAMES : list string :=
  ["string"; "number"; "integer"; "boolean"; "array"; "object"]%string.

(** The fields [create_block] sets when the caller leaves them out, with
    their values; [updated_at] is set in any case. *)
Definition DEFAULTS (now_ : pystr) : list (string * pyval) :=
  [ ("created_at", VStr now_); ("version", VStr (py "1.0"));
    ("usage_count", VInt 0); ("rating", VFloat 0); ("feedback", VList []);
    ("variations", VList []); ("examples", VList []); ("tags", VList []);
    ("related_blocks", VList []) ]%string.

End Manager.

(** ** The toolkit converter: [converter.py] *)

Module Converter.

Import Re.

Definition domain_map : list (pystr * pystr) :=
  [ (py "主动", py "proactive");
    (py "关系", py "relationship");
    (py "合同", py "defense");
    (py "心智", py "mindset");
    (py "报价", py "defense");
    (py "效率", py "efficiency");
    (py "沟通", py "defense") ].

Definition type_map : list (pystr * pystr) :=
  [ (py "个人品牌建设", py "module");
    (py "从执行到顾问", py "guide");
    (py "价值定价策略", py "tool");
    (py "内容营销策略", py "module");
    (py "客户开发策略", py "module");
    (py "同行网络建设", py "module");
    (py "长期客户维护", py "module");
    (py "付款节点设置", py "tool");
    (py "修改次数限制", py "tool");
    (py "著作权归属界定", py "tool");
    (py "违约责任界定", py "tool");
    (py "内在动力建设", py "module");
    (py "决策框架", py "tool");
    (py "成长型思维", py "module");
    (py "抗压能力与职业倦怠预防", py "module");
    (py "低价竞争应对", py "tool");
    (py "应对无预算试探", py "tool");
    (py "紧急项目加价", py "tool");
    (py "工作流程标准化", py "module");
    (py "时间管理与精力分配", py "module");
    (py "客户拖延付款", py "tool");
    (py "应对免费试稿", py "tool");
    (py "项目范围蔓延", py "tool") ].

(** [m.get(key, dflt)] *)
Fixpoint map_get (m : list (pystr * pystr)) (key dflt : pystr) : pystr :=
  match m with
  | [] => dflt
  | (k, v) :: m' => if str_eqb k key then v else map_get m' key dflt
  end.

(** What [parse_toolkit] takes from its surroundings: [str(uuid.uuid4())]
    and the two clock readings that end up in the record. *)
Record env := Env {
  uuid4 : pystr;
  created : pystr;
  updated : pystr
}.

Definition generate_id (E : env) (title : pystr) : pystr :=
  let unique_id := take 8 (uuid4 E) in
  let title_slug :=
    take 20 (strip_by (N.eqb 45) (sub non_slug_run (py "-") (lower title))) in
  title_slug ++ py "_" ++ unique_id.

(** [^#\s*(.+?)\s*v\d+\.\d+], with [re.MULTILINE] *)
Definition TITLE : regex :=
  cat [ Bol true; Lit (py "#"); Many true 0 is_space; Group (Many false 1 dot);
        Many true 0 is_space; Lit (py "v"); Many true 1 is_digit; Lit (py ".");
        Many true 1 is_digit ].

Definition not_star (c : N) : bool := negb (c =? 42).

Definition HEADING : pystr := py "## 元信息".

(** [- \*\*[^\*]+\*\*: .+\n], the group of the metadata pattern *)
Definition META_LINE : regex :=
  cat [ Lit (py "- **"); Many true 1 not_star; Lit (py "**: "); Many true 1 dot;
        Lit nl ].

(** [## 元信息\n(- \*\*[^\*]+\*\*: .+\n)+] *)
Definition META : regex := cat [ Lit (HEADING ++ nl); Plus (Group META_LINE) ].

(** [^#\s*.+?v\d+\.\d+\n\n], without flags *)
Definition TITLE_LINE : regex :=
  cat [ Bol false; Lit (py "#"); Many true 0 is_space; Many false 1 dot;
        Lit (py "v"); Many true 1 is_digit; Lit (py "."); Many true 1 is_digit;
        Lit (nl ++ nl) ].

(** [line.split(sep, 1)] when it yields two parts; [w] is the text read so
    far, in reverse. *)
Fixpoint split_once (sep : pystr) (w s : pystr) : option (pystr * pystr) :=
  if startswith sep s then Some (reverse w, drop (length sep) s)
  else match s with
  | [] => None
  | c :: s' => split_once sep (c :: w) s'
  end.

Definition dash_space_star (c : N) : bool := (c =? 45) || (c =? 32) || (c =? 42).

(** The loop over the lines of the metadata block. *)
Fixpoint read_meta (lines : list pystr) (meta_info : gmap pystr pystr)
  : outcome (gmap pystr pystr) :=
  match lines with
  | [] => Ret meta_info
  | line :: lines' =>
    if contains (py "- **") line then
      match split_once (py ": ") [] line with
      | Some (key, value) =>
        let key := strip_by (N.eqb 42) (strip_by dash_space_star key) in
        read_meta lines' (<[key := strip value]> meta_info)
      | None => Raise ValueErrorPy
      end
    else read_meta lines' meta_info
  end.

(** [parse_toolkit], from the text read from the file. *)
Definition parse_toolkit (E : env) (content : pystr) : outcome dict :=
  let title :=
    match search TITLE content with
    | Some m => default [] (group1 (stop m))
    | None => py "Untitled"
    end in
  meta_info ←
    match search META content with
    | Some m => read_meta (split_on 10 (group0 m)) ∅
    | None => Ret ∅
    end;
  let core_content := sub META [] content in
  let core_content := sub TITLE_LINE [] core_content in
  let domain_key := strip (default [] (split_on 45 title !! 0%nat)) in
  match split_on 45 title !! 1%nat with
  | None => Raise IndexError
  | Some part =>
    let type_key := strip part in
    let domain := map_get domain_map domain_key (py "defense") in
    let type_ := map_get type_map type_key (py "module") in
    Ret (list_to_map
      [ ("id", VStr (generate_id E title));
        ("title", VStr title);
        ("type", VStr type_);
        ("domain", VStr domain);
        ("subdomain", VStr type_key);
        ("content", VStr core_content);
        ("context", VStr (default [] (meta_info !! py "适用场景")));
        ("variations", VList []);
        ("examples", VList []);
        ("tags", VList [VStr domain_key; VStr type_key]);
        ("related_blocks", VList []);
        ("skill_tree", VDict ∅);
        ("version", VStr (py "1.0"));
        ("usage_count", VInt 0);
        ("rating", VFloat 0);
        ("feedback", VList []);
        ("created_at", VStr (created E));
        ("updated_at", VStr (updated E)) ])
  end.

(** [domain_dir.mkdir(exist_ok=True)] *)
Definition mkdir (domain : pystr) (tree : gmap pystr (gmap pystr Manager.file))
  : gmap pystr (gmap pystr Manager.file) :=
  match tree !! domain with
  | Some _ => tree
  | None => <[domain := ∅]> tree
  end.

(** Lines 157-161 of [main]: the record goes to [<domain>/<id>.json].
    [parse_toolkit] builds both fields as [str]. *)
Definition save (block : dict) (tree : gmap pystr (gmap pystr Manager.file))
  : outcome (gmap pystr (gmap pystr Manager.file)) :=
  match block !! "domain" with
  | None => Raise (KeyError "domain")
  | Some (VStr domain) =>
    match block !! "id" with
    | None => Raise (KeyError "id")
    | Some (VStr block_id) =>
      match tree !! domain with
      | None => Raise FileNotFoundError
      | Some dir =>
        Ret (<[domain := <[block_id ++ py ".json" := Manager.Json (VDict block)]> dir]> tree)
      end
    | Some _ => Raise TypeError
    end
  | Some _ => Raise TypeError
  end.

(** One turn of the loop of [main] (lines 147-167): [except Exception]
    catches whatever the turn raises and the loop goes on.  What is printed
    is not modelled. *)
Definition convert (E : env) (content : pystr)
    (tree : gmap pystr (gmap pystr Manager.file))
  : gmap pystr (gmap pystr Manager.file) :=
  match parse_toolkit E content ≫= (λ block, save block tree) with
  | Ret tree' => tree'
  | Raise _ => tree
  end.

Fixpoint convert_all (files : list (env * pystr))
    (tree : gmap pystr (gmap pystr Manager.file))
  : gmap pystr (gmap pystr Manager.file) :=
  match files with
  | [] => tree
  | (E, content) :: files' => convert_all files' (convert E content tree)
  end.

(** [main], on the output directory: [toolkits] is [None] when the toolkit
    directory does not exist, and otherwise lists the text of its [*.md]
    files, each with what [uuid4] and the clock yield while it is
    converted. *)
Definition main (toolkits : option (list (env * pystr)))
    (tree : gmap pystr (gmap pystr Manager.file))
  : gmap pystr (gmap pystr Manager.file) :=
  match toolkits with
  | None => tree
  | Some files => convert_all files (foldl (λ t kv, mkdir kv.2 t) tree domain_map)
  end.

(** *** Notions used to state the properties *)

(** The title line of the specification's example. *)
Definition QUOTE_TITLE : pystr := py "# 报价-价值定价策略 v1.0".

(** A metadata line, [- **key**: value], and the block such lines form
    under the heading. *)
Definition meta_line (kv : pystr * pystr) : pystr :=
  let '(key, value) := kv in py "- **" ++ key ++ py "**: " ++ value ++ nl.

Definition meta_block (kvs : list (pystr * pystr)) : pystr :=
  HEADING ++ nl ++ concat (meta_line <$> kvs).

(** The text of a metadata line, without its line feed. *)
Definition line_text (kv : pystr * pystr) : pystr :=
  let '(key, value) := kv in py "- **" ++ key ++ py "**: " ++ value.

(** A key that [line.split(': ', 1)] does not cut and the two [strip] calls
    leave whole: it holds no colon followed by a space, and neither starts
    nor ends with a dash, a space or a star. *)
Definition clean (key : pystr) : Prop :=
  contains (py ": ") key = false ∧
  match key with [] => True | c :: _ => dash_space_star c = false end ∧
  match reverse key with [] => True | c :: _ => dash_space_star c = false end.

(** The mapping the metadata lines are read into: the value of a line,
    stripped, under its key; a later line replaces an earlier one. *)
Definition meta_of (kvs : list (pystr * pystr)) : gmap pystr pystr :=
  foldl (λ m kv, <[kv.1 := strip kv.2]> m) ∅ kvs.

(** Code points on which [str.lower] is the ASCII mapping of this
    embedding: ASCII itself and the CJK unified ideographs. *)
Definition caseless (c : N) : bool :=
  (c <? 128) || ((19968 <=? c) && (c <=? 40959)).

(** The key is not empty and has no star and no line feed; the value is not
    empty and has no line feed. *)
Definition plain (kv : pystr * pystr) : Prop :=
  let '(key, value) := kv in
  key ≠ [] ∧ (42 ∉ key) ∧ (10 ∉ key) ∧ value ≠ [] ∧ (10 ∉ value).

End Converter.


(** ** Sample data for the closed examples *)

Module Sample.

Import Manager.

(** A schema in the shape the specification describes. *)
Definition schema : schema_t :=
  Schema ["id"; "title"; "domain"; "type"; "content"]
         [ ("id", Some (py "string")); ("title", Some (py "string"));
           ("domain", Some (py "string")); ("type", Some (py "string"));
           ("content", Some (py "string")); ("version", Some (py "string"));
           ("usage_count", Some (py "integer")); ("rating", Some (py "number"));
           ("feedback", Some (py "array")); ("tags", Some (py "array")) ].

(** Surroundings for running the manager on the samples; the results below
    do not depend on the digest, on the text of floats or on the JSON text. *)
Definition E : env :=
  Env schema
      (λ _, py "9e107d9d372bb6826bd81d3542a419d6")
      (λ n, py "2024-05-01T10:00:0" ++ str_of_int (Z.of_nat n))
      (λ _, py "<repr>")
      (λ _, py "<json>").

Definition block (block_id domain title content : string) (tags : list pyval) : dict :=
  list_to_map
    [ ("id", VStr (py block_id)); ("title", VStr (py title));
      ("domain", VStr (py domain)); ("type", VStr (py "tool"));
      ("content", VStr (py content)); ("version", VStr (py "1.0"));
      ("usage_count", VInt 0); ("rating", VFloat 0); ("feedback", VList []);
      ("tags", VList tags); ("created_at", VStr (py "2024-04-01T09:00:00"));
      ("updated_at", VStr (py "2024-04-01T09:00:00")) ].

Definition empty_tree : gmap pystr (gmap pystr file) :=
  list_to_map ((λ d, (d, ∅)) <$> DOMAINS).

(** One block, [pricing], in [defense]. *)
Definition pricing : dict :=
  block "pricing" "defense" "Value pricing" "Quote by value, not by hours." [].

Definition world1 : world :=
  World (<[py "defense" := {[ py "pricing.json" := Json (VDict pricing) ]}]> empty_tree) 0.

(** The same id in a second domain. *)
Definition world2 : world :=
  World (<[py "mindset" :=
            {[ py "pricing.json" :=
                 Json (VDict (block "pricing" "mindset" "Pricing mindset"
                                    "Charge what the work is worth." [])) ]}]>
           (fs world1)) 0.

(** A block whose only mention of the word is a capitalised tag. *)
Definition tagged : dict :=
  block "timeboxing" "efficiency" "Time boxing" "Plan the day in blocks."
        [VStr (py "Efficiency")].

Definition world3 : world :=
  World (<[py "efficiency" := {[ py "timeboxing.json" := Json (VDict tagged) ]}]>
           empty_tree) 0.

(** What an operation returns and the world it leaves, [VNone] standing in
    for an exception. *)
Definition result (m : M pyval) (w : world) : pyval * world :=
  match m w with
  | (Ret v, w') => (v, w')
  | (Raise _, w') => (VNone, w')
  end.

Definition as_dict (v : pyval) : dict :=
  match v with VDict b => b | _ => ∅ end.

(** Two updates of the content. *)
Definition updated1 : pyval * world := Eval vm_compute in
  result (update_block E (py "pricing")
            {[ "content" := VStr (py "Quote by value.") ]}) world1.

Definition updated2 : pyval * world := Eval vm_compute in
  result (update_block E (py "pricing")
            {[ "content" := VStr (py "Quote by outcome.") ]}) updated1.2.

(** Feedback rated 3, then feedback rated 5. *)
Definition rated3 : pyval * world := Eval vm_compute in
  result (add_feedback E (py "pricing") {[ "rating" := VInt 3 ]}) world1.


(** A record for [create_block] that lacks the required [type]. *)
Definition untyped : dict :=
  {[ "title" := VStr (py "Scope creep"); "domain" := VStr (py "defense");
     "content" := VStr (py "Name the change, price the change.") ]}.

Definition untyped_with_id : dict * world := Eval vm_compute in
  match ensure_id E untyped world1 with
  | (Ret d, w') => (d, w')
  | (Raise _, w') => (∅, w')
  end.

(** [delete_block] of the id that two domains hold. *)
Definition deleted2 : world := Eval vm_compute in
  (delete_block E (py "pricing") world2).2.

(** [increment_usage] on it. *)
Definition used : pyval * world := Eval vm_compute in
  result (increment_usage E (py "pricing")) world1.

(** *** For the converter *)

Import Converter.

Definition CE : Converter.env :=
  Converter.Env (py "0f8fad5b-d9cb-469f-a165-70867728950e")
                (py "2024-05-01T10:00:00") (py "2024-05-01T10:00:01").

(** A document in which no empty line follows the title line. *)
Definition cramped : pystr := QUOTE_TITLE ++ nl ++ py "按价值报价。" ++ nl.

Definition cramped_record : dict := Eval vm_compute in
  match parse_toolkit CE cramped with
  | Ret d => d
  | Raise _ => ∅
  end.

(** The parts of a document in the shape of the toolkit files: two
    metadata lines and the body that follows the block. *)
Definition scenario : pystr * pystr := (py "适用场景", py "报价谈判").
Definition difficulty : pystr * pystr := (py "难度", py "中").


(** *** For the further properties *)

(** A record that passes the sample schema, and the same with its
    identifier. *)
Definition scope_creep : dict := <["type" := VStr (py "tool")]> untyped.


Definition created : pyval * world := Eval vm_compute in
  result (create_block E scope_creep) world1.



(** [defense/pricing.json] holds the empty object. *)
Definition hollow : world :=
  World (<[py "defense" := {[ py "pricing.json" := Json (VDict ∅) ]}]> empty_tree) 0.

(** [defense/notes.json] holds a JSON list, beside the block of [world1]. *)
Definition listed : world :=
  World (<[py "defense" :=
            {[ py "pricing.json" := Json (VDict pricing);
               py "notes.json" := Json (VList []) ]}]> empty_tree) 0.

(** A batch of two documents, the first without a title line, and what
    [main] makes of it in an empty output directory. *)
Definition batch : list (Converter.env * pystr) :=
  [ (CE, py "no heading here"); (CE, cramped) ].

Definition converted : gmap pystr (gmap pystr file) := Eval vm_compute in
  Converter.main (Some batch) ∅.

End Sample.

(** * Properties *)

(** ** Text *)

Section Text.

Lemma startswith_iff t s : startswith t s = true ↔ ∃ b, s = t ++ b.
Proof.
  revert s; induction t as [|a t IH]; intros s; simpl.
  - split; eauto.
  - destruct s as [|c s].
    + split; [done | intros [b Hb]; discriminate].
    + rewrite andb_true_iff, N.eqb_eq, IH. split.
      * intros [-> [b ->]]. eauto.
      * intros [b Hb]. injection Hb as -> ->. eauto.
Qed.

Lemma contains_iff t s : contains t s = true ↔ ∃ a b, s = a ++ t ++ b.
Proof.
  induction s as [|c s IH]; simpl.
  - rewrite orb_false_r, startswith_iff. split.
    + intros [b Hb]. exists [], b. done.
    + intros (a & b & Hab). destruct a; [eauto|discriminate].
  - rewrite orb_true_iff, startswith_iff, IH. split.
    + intros [[b Hb] | (a & b & ->)].
      * exists [], b. done.
      * exists (c :: a), b. done.
    + intros (a & b & Hab). destruct a as [|x a]; simpl in Hab.
      * left. eauto.
      * right. injection Hab as -> ->. eauto.
Qed.

Lemma contains_nil s : contains [] s = true.
Proof. destruct s; done. Qed.

(** A text without the separator cannot start across it. *)
Lemma startswith_sep t a sep b :
  sep ∉ t → startswith t (a ++ sep :: b) = startswith t a.
Proof.
  revert a; induction t as [|x t IH]; intros a Hsep; [done|].
  apply not_elem_of_cons in Hsep as [Hx Ht].
  destruct a as [|c a]; simpl.
  - apply andb_false_iff. left. apply N.eqb_neq. done.
  - by rewrite IH.
Qed.

(** A text without the separator occurs in [a sep b] exactly when it occurs
    in [a] or in [b]. *)
Lemma contains_sep t a sep b :
  sep ∉ t → contains t (a ++ sep :: b) = contains t a || contains t b.
Proof.
  intros Hsep. induction a as [|c a IH].
  - change ([] ++ sep :: b) with (sep :: b).
    change (contains t (sep :: b))
      with (startswith t (sep :: b) || contains t b).
    destruct t as [|x t]; [by rewrite contains_nil|].
    apply not_elem_of_cons in Hsep as [Hx _].
    simpl. replace (x =? sep) with false; [done|].
    symmetry. by apply N.eqb_neq.
  - change (contains t ((c :: a) ++ sep :: b))
      with (startswith t ((c :: a) ++ sep :: b) || contains t (a ++ sep :: b)).
    change (contains t (c :: a)) with (startswith t (c :: a) || contains t a).
    rewrite IH, (startswith_sep t (c :: a)) by done.
    by rewrite orb_assoc.
Qed.

Lemma contains_join t l :
  32 ∉ t → t ≠ [] →
  contains t (join (py " ") l) = existsb (contains t) l.
Proof.
  intros Hsp Hne. induction l as [|a l IH]; simpl.
  - destruct t; done.
  - destruct l as [|a' l].
    + simpl. by rewrite orb_false_r.
    + change (py " " ++ join (py " ") (a' :: l))
        with (32 :: join (py " ") (a' :: l)).
      by rewrite contains_sep, IH.
Qed.

Definition token (t : pystr) : Prop :=
  t ≠ [] ∧ Forall (λ c, is_space c = false) t.




Lemma token_no_space t : token t → 32 ∉ t.
Proof.
  intros [_ Ht] Hin. eapply Forall_forall in Ht; [|done]. discriminate.
Qed.



Lemma chars_of_uint_digits d : Forall (λ c, is_digit c = true) (chars_of_uint d).
Proof. induction d; simpl; constructor; done. Qed.

Lemma uint_of_chars_after d : uint_of_chars true (chars_of_uint d) = Some d.
Proof. induction d; simpl; [done | by rewrite IHd ..]. Qed.

Lemma uint_of_chars_first d :
  d ≠ Decimal.Nil → uint_of_chars false (chars_of_uint d) = Some d.
Proof. destruct d; simpl; [done | by rewrite uint_of_chars_after ..]. Qed.

Lemma lstrip_by_keep p s :
  match s with [] => True | c :: _ => p c = false end → lstrip_by p s = s.
Proof. destruct s as [|c s]; simpl; [done|]. by intros ->. Qed.

Lemma strip_by_keep p s : Forall (λ c, p c = false) s → strip_by p s = s.
Proof.
  intros Hs. unfold strip_by, rstrip_by.
  rewrite (lstrip_by_keep p s) by (destruct Hs; done).
  rewrite lstrip_by_keep; [apply reverse_involutive|].
  apply Forall_reverse in Hs. destruct Hs; done.
Qed.

Lemma digit_not_space c : is_digit c = true → is_space c = false.
Proof.
  unfold is_digit, is_space. intros [H1%N.leb_le H2%N.leb_le]%andb_true_iff.
  repeat match goal with
  | |- context [?a <=? ?b] =>
    let H := fresh in destruct (N.leb_spec a b) as [H|H]; try lia
  | |- context [?a =? ?b] =>
    let H := fresh in destruct (N.eqb_spec a b) as [H|H]; try lia
  end; done.
Qed.

Lemma to_int_nonnil z :
  match Z.to_int z with Decimal.Pos d | Decimal.Neg d => d ≠ Decimal.Nil end.
Proof.
  destruct z; simpl; [done | apply DecimalPos.Unsigned.to_uint_nonnil ..].
Qed.

(** [int(str(z)) == z] *)
Lemma int_of_str_of_int z : int_of_str (str_of_int z) = Some z.
Proof.
  pose proof (to_int_nonnil z) as Hnil.
  pose proof (DecimalZ.of_to z) as Hz.
  unfold int_of_str, str_of_int, strip.
  destruct (Z.to_int z) as [d|d].
  - rewrite strip_by_keep.
    2:{ eapply Forall_impl; [apply chars_of_uint_digits|]. apply digit_not_space. }
    pose proof (uint_of_chars_first d Hnil) as Hd.
    pose proof (chars_of_uint_digits d) as Hdig.
    destruct (chars_of_uint d) as [|c cs] eqn:Hcs; [by destruct d|].
    apply Forall_cons in Hdig as [Hc _].
    assert ((c =? 45) = false ∧ (c =? 43) = false) as [-> ->].
    { unfold is_digit in Hc. apply andb_true_iff in Hc as [H1%N.leb_le _].
      split; apply N.eqb_neq; lia. }
    rewrite Hd. exact (f_equal Some Hz).
  - rewrite strip_by_keep.
    2:{ constructor; [done|]. eapply Forall_impl; [apply chars_of_uint_digits|].
        apply digit_not_space. }
    change (45 =? 45) with true. cbv iota.
    rewrite (uint_of_chars_first d Hnil). exact (f_equal Some Hz).
Qed.

Lemma str_of_int_no_dot z : 46 ∉ str_of_int z.
Proof.
  assert (∀ d, 46 ∉ chars_of_uint d) as Hd.
  { intros d Hin. pose proof (chars_of_uint_digits d) as Hdig.
    eapply Forall_forall in Hdig; [|done]. discriminate. }
  unfold str_of_int. destruct (Z.to_int z); [apply Hd|].
  apply not_elem_of_cons. split; [done | apply Hd].
Qed.

Lemma split_on_go_none sep w s :
  sep ∉ s → split_on_go sep w s = [reverse w ++ s].
Proof.
  revert w; induction s as [|c s IH]; intros w Hs; simpl.
  - by rewrite app_nil_r.
  - apply not_elem_of_cons in Hs as [Hc Hs].
    replace (c =? sep) with false by (symmetry; apply N.eqb_neq; done).
    rewrite IH by done. by rewrite reverse_cons, <- app_assoc.
Qed.

Lemma split_on_go_sep sep w a b :
  sep ∉ a →
  split_on_go sep w (a ++ sep :: b) = (reverse w ++ a) :: split_on_go sep [] b.
Proof.
  revert w; induction a as [|c a IH]; intros w Ha; simpl.
  - by rewrite N.eqb_refl, app_nil_r.
  - apply not_elem_of_cons in Ha as [Hc Ha].
    replace (c =? sep) with false by (symmetry; apply N.eqb_neq; done).
    rewrite IH by done. by rewrite reverse_cons, <- app_assoc.
Qed.

End Text.

(** ** The manager *)

Import Manager.

Section Monad.

Lemma bind_unfold {A B} (m : M A) (f : A → M B) w :
  (m ≫= f) w =
  match m w with (Ret a, w') => f a w' | (Raise e, w') => (Raise e, w') end.
Proof. reflexivity. Qed.

Lemma bind_Ret {A B} (m : M A) (f : A → M B) w b w' :
  (m ≫= f) w = (Ret b, w') →
  ∃ a w1, m w = (Ret a, w1) ∧ f a w1 = (Ret b, w').
Proof.
  rewrite bind_unfold. destruct (m w) as [[a|e] w1]; [eauto | discriminate].
Qed.

Lemma bind_Raise {A B} (m : M A) (f : A → M B) w e w' :
  (m ≫= f) w = (Raise e, w') →
  m w = (Raise e, w') ∨ ∃ a w1, m w = (Ret a, w1) ∧ f a w1 = (Raise e, w').
Proof.
  rewrite bind_unfold. destruct (m w) as [[a|e1] w1]; [eauto|].
  intros [= -> ->]. by left.
Qed.

Lemma lift_Ret {A} (o : outcome A) w a w' :
  lift o w = (Ret a, w') → o = Ret a ∧ w' = w.
Proof. unfold lift. by intros [= -> ->]. Qed.

Lemma obind_Ret {A B} (o : outcome A) (f : A → outcome B) b :
  o ≫= f = Ret b → ∃ a, o = Ret a ∧ f a = Ret b.
Proof. destruct o as [a|e]; [eauto | discriminate]. Qed.

End Monad.

Section Versions.

(** A version the manager prints is read back as the same pair. *)
Lemma parse_format_version a b : parse_version (format_version a b) = Ret (a, b).
Proof.
  unfold parse_version, format_version, split_on.
  change (py "." ++ str_of_int b) with (46 :: str_of_int b).
  rewrite split_on_go_sep by apply str_of_int_no_dot.
  rewrite split_on_go_none by apply str_of_int_no_dot.
  simpl. by rewrite !int_of_str_of_int.
Qed.

Lemma bump_version_Ret block block' :
  bump_version block = Ret block' →
  match block !! "version" with
  | None => block' = block
  | Some v =>
    ∃ s major minor, v = VStr s ∧ parse_version s = Ret (major, minor) ∧
      block' = <["version" := VStr (format_version major (minor + 1))]> block
  end.
Proof.
  unfold bump_version. destruct (block !! "version") as [[]|]; try done.
  - intros ([major minor] & Hp & Hr)%obind_Ret. injection Hr as <-. eauto 6.
  - by intros [= <-].
Qed.

End Versions.

Section Files.

Lemma file_at_write w d f v w' d' f' :
  write_json d f v w = (Ret (), w') →
  file_at w' d' f' =
    if decide (d' = d ∧ f' = f) then Some (Json v) else file_at w d' f'.
Proof.
  unfold write_json, file_at. destruct (fs w !! d) as [dir|] eqn:Hd; [|done].
  intros [= <-]. simpl. case_decide as Hdf.
  - destruct Hdf as [-> ->]. rewrite lookup_insert_eq. simpl.
    by rewrite lookup_insert_eq.
  - destruct (decide (d' = d)) as [->|Hne].
    + rewrite lookup_insert_eq, Hd. simpl. rewrite lookup_insert_ne; [done|].
      intros ->. by apply Hdf.
    + by rewrite lookup_insert_ne.
Qed.

Lemma file_at_remove w d f w' d' f' :
  remove d f w = (Ret (), w') →
  file_at w' d' f' =
    if decide (d' = d ∧ f' = f) then None else file_at w d' f'.
Proof.
  unfold remove, file_at. destruct (fs w !! d) as [dir|] eqn:Hd; [|done].
  intros [= <-]. simpl. case_decide as Hdf.
  - destruct Hdf as [-> ->]. rewrite lookup_insert_eq. simpl.
    by rewrite lookup_delete_eq.
  - destruct (decide (d' = d)) as [->|Hne].
    + rewrite lookup_insert_eq, Hd. simpl. rewrite lookup_delete_ne; [done|].
      intros ->. by apply Hdf.
    + by rewrite lookup_insert_ne.
Qed.

Lemma write_json_total w d f v :
  is_Some (fs w !! d) → ∃ w', write_json d f v w = (Ret (), w').
Proof. intros [dir Hd]. unfold write_json. rewrite Hd. eauto. Qed.

Lemma json_name_inj i j : i ++ py ".json" = j ++ py ".json" → i = j.
Proof. apply app_inv_tail. Qed.

(** [_save_block] writes the block where its fields say, and nothing else. *)
Lemma _save_block_Ret E b w w' :
  _save_block E b w = (Ret (), w') →
  ∃ d block_id,
    b !! "domain" = Some (VStr d) ∧ b !! "id" = Some block_id ∧
    write_json d (json_name E block_id) (VDict b) w = (Ret (), w').
Proof.
  unfold _save_block.
  destruct (b !! "domain") as [dom|]; [|done].
  destruct (b !! "id") as [block_id|]; [|done].
  destruct dom; try done. eauto.
Qed.

Lemma consistent_write E w w' b d i :
  consistent w →
  b !! "domain" = Some (VStr d) → b !! "id" = Some (VStr i) →
  write_json d (json_name E (VStr i)) (VDict b) w = (Ret (), w') →
  consistent w'.
Proof.
  intros Hw Hd Hi Hwrite d' i' v.
  rewrite (file_at_write _ _ _ _ _ _ _ Hwrite). case_decide as Hdf.
  - destruct Hdf as [-> ->%json_name_inj]. intros [= <-]. eauto.
  - apply Hw.
Qed.


End Files.

Section Lookup.

Context (E : env).


(** What the scan over the domains returns: the first file of that name, or
    [None] when no domain has one. *)
Lemma get_block_scan_Ret block_id ds w v w' :
  get_block_scan E block_id ds w = (Ret v, w') →
  (v = VNone ∧ ∀ d, d ∈ ds → file_at w d (block_id ++ py ".json") = None) ∨
  (∃ ds1 d ds2, ds = ds1 ++ d :: ds2 ∧
     (∀ d', d' ∈ ds1 → file_at w d' (block_id ++ py ".json") = None) ∧
     file_at w d (block_id ++ py ".json") = Some (Json v)).
Proof.
  induction ds as [|d ds IH]; simpl.
  - intros [= <- _]. left. split; [done|]. intros d Hd. by apply elem_of_nil in Hd.
  - rewrite bind_unfold. unfold path_exists at 1. case_bool_decide as Hex.
    + unfold read_json. destruct (file_at w d _) as [[|v0]|] eqn:Hf; try done.
      intros [= <- _]. right. exists [], d, ds. split; [done|]. split; [|done].
      intros d' Hd'. by apply elem_of_nil in Hd'.
    + assert (file_at w d (block_id ++ py ".json") = None) as Hnone.
      { destruct (file_at w d _); [|done]. exfalso. apply Hex. eauto. }
      intros [[-> Hall] | (ds1 & d1 & ds2 & -> & Hpre & Hf)]%IH.
      * left. split; [done|]. intros d' [->|Hd']%elem_of_cons; eauto.
      * right. exists (d :: ds1), d1, ds2. split; [done|]. split; [|done].
        intros d' [->|Hd']%elem_of_cons; eauto.
Qed.

Lemma get_block_scan_None block_id ds w :
  (∀ d, d ∈ ds → file_at w d (block_id ++ py ".json") = None) →
  get_block_scan E block_id ds w = (Ret VNone, w).
Proof.
  induction ds as [|d ds IH]; simpl; intros Hall; [done|].
  rewrite bind_unfold. unfold path_exists at 1.
  rewrite bool_decide_eq_false_2.
  - apply IH. intros d' Hd'. apply Hall. by right.
  - rewrite Hall by left. by intros [? ?].
Qed.

Lemma get_block_scan_first block_id ds1 d ds2 w v :
  (∀ d', d' ∈ ds1 → file_at w d' (block_id ++ py ".json") = None) →
  file_at w d (block_id ++ py ".json") = Some (Json v) →
  get_block_scan E block_id (ds1 ++ d :: ds2) w = (Ret v, w).
Proof.
  induction ds1 as [|d1 ds1 IH]; simpl; intros Hpre Hf.
  - rewrite bind_unfold. unfold path_exists at 1.
    rewrite bool_decide_eq_true_2 by (rewrite Hf; eauto).
    unfold read_json. by rewrite Hf.
  - rewrite bind_unfold. unfold path_exists at 1.
    rewrite bool_decide_eq_false_2.
    + apply IH; [|done]. intros d' Hd'. apply Hpre. by right.
    + rewrite Hpre by left. by intros [? ?].
Qed.


End Lookup.

Section Operations.

Context (E : env).

Lemma truthy_dict (b : dict) k v : b !! k = Some v → truthy (VDict b) = true.
Proof.
  intros Hk. simpl. destruct (map_to_list b) eqn:Hl; [|done].
  apply map_to_list_empty_iff in Hl. by rewrite Hl, lookup_empty in Hk.
Qed.

Lemma now_unfold w : now E w = (Ret (clock E (ticks w)), World (fs w) (S (ticks w))).
Proof. reflexivity. Qed.



(** A successful [update_block] on a block that is there: what was saved. *)
Lemma update_block_Ret block_id updates w b v w' :
  get_block E block_id None w = (Ret (VDict b), w) →
  truthy (VDict b) = true →
  update_block E block_id updates w = (Ret v, w') →
  ∃ m, v = VDict m ∧
    bump_version (<["updated_at" := VStr (clock E (ticks w))]> (updates ∪ b)) = Ret m ∧
    _validate_block E m = Ret () ∧
    _save_block E m (World (fs w) (S (ticks w))) = (Ret (), w').
Proof.
  intros Hget Htr Hup. unfold update_block in Hup.
  rewrite bind_unfold, Hget, Htr in Hup. simpl in Hup.
  rewrite bind_unfold, now_unfold in Hup.
  apply bind_Ret in Hup as (m & w3 & [Hbump ->]%lift_Ret & Hup).
  apply bind_Ret in Hup as ([] & w4 & [Hval ->]%lift_Ret & Hup).
  apply bind_Ret in Hup as ([] & w5 & Hsave & [= <- <-]).
  eauto.
Qed.

Lemma increment_usage_Ret block_id w b v w' :
  get_block E block_id None w = (Ret (VDict b), w) →
  truthy (VDict b) = true →
  increment_usage E block_id w = (Ret v, w') →
  ∃ count, v = VDict (<["usage_count" := count]> b) ∧
    add_one (default (VInt 0) (b !! "usage_count")) = Ret count ∧
    _save_block E (<["usage_count" := count]> b) w = (Ret (), w').
Proof.
  intros Hget Htr Hup. unfold increment_usage in Hup.
  rewrite bind_unfold, Hget, Htr in Hup. simpl in Hup.
  apply bind_Ret in Hup as (count & w3 & [Hadd ->]%lift_Ret & Hup).
  apply bind_Ret in Hup as ([] & w5 & Hsave & [= <- <-]).
  eauto.
Qed.

Lemma add_feedback_Ret block_id feedback w b v w' :
  get_block E block_id None w = (Ret (VDict b), w) →
  truthy (VDict b) = true →
  add_feedback E block_id feedback w = (Ret v, w') →
  ∃ old ratings m,
    default_field "feedback" (VList []) b !! "feedback" = Some (VList old) ∧
    collect_ratings (old ++ [VDict (stamped E block_id feedback w)]) = Ret ratings ∧
    let b1 := <["feedback" := VList (old ++ [VDict (stamped E block_id feedback w)])]>
                (default_field "feedback" (VList []) b) in
    match ratings with
    | [] => m = b1
    | _ :: _ => ∃ q, mean ratings = Ret q ∧ m = <["rating" := VFloat q]> b1
    end ∧
    v = VDict m ∧
    _save_block E m (World (fs w) (S (S (ticks w)))) = (Ret (), w').
Proof.
  intros Hget Htr Hup. unfold add_feedback in Hup.
  rewrite bind_unfold, Hget, Htr in Hup. simpl in Hup.
  unfold generate_id in Hup. rewrite !bind_unfold, now_unfold in Hup.
  simpl in Hup. rewrite !bind_unfold, now_unfold in Hup. simpl in Hup.
  fold (stamped E block_id feedback w) in Hup.
  destruct (default_field "feedback" (VList []) b !! "feedback") as [[]|] eqn:Hfb;
    try done.
  apply bind_Ret in Hup as (ratings & w3 & [Hcol ->]%lift_Ret & Hup).
  apply bind_Ret in Hup as (m & w4 & Hm & Hup).
  apply bind_Ret in Hup as ([] & w5 & Hsave & [= <- <-]).
  exists l, ratings, m. split; [done|]. split; [done|]. simpl.
  destruct ratings as [|r rs].
  - injection Hm as <- <-. done.
  - apply bind_Ret in Hm as (q & w6 & [Hq ->]%lift_Ret & [= <- <-]). eauto.
Qed.

End Operations.

Section Checks.

Lemma endswith_app t s : endswith t (s ++ t) = true.
Proof.
  unfold endswith. rewrite reverse_app. apply startswith_iff. eauto.
Qed.

Lemma str_eqb_eq a b : str_eqb a b = true ↔ a = b.
Proof. unfold str_eqb. apply bool_decide_eq_true. Qed.

Lemma consistentb_sound w : consistentb w = true → consistent w.
Proof.
  unfold consistentb. rewrite forallb_forall. intros Hall d i v Hf.
  unfold file_at in Hf. destruct (fs w !! d) as [dir|] eqn:Hd; [|done].
  simpl in Hf.
  apply elem_of_map_to_list, list_elem_of_In in Hd. apply Hall in Hd.
  rewrite forallb_forall in Hd.
  apply elem_of_map_to_list, list_elem_of_In in Hf. apply Hd in Hf.
  unfold file_ok in Hf. rewrite endswith_app in Hf.
  destruct v as [| | | | | |b]; try done.
  destruct (b !! "id") as [[| | | |i'| |]|] eqn:Hbi; try done.
  destruct (b !! "domain") as [[| | | |d'| |]|] eqn:Hbd; try done.
  apply andb_true_iff in Hf as [Hi%str_eqb_eq%json_name_inj Hd'%str_eqb_eq].
  subst. eauto.
Qed.

End Checks.

Section Identity.

Context (E : env).

Lemma check_types_Ret props (b : dict) k ty v :
  check_types props b = Ret () →
  (k, Some ty) ∈ props → b !! k = Some v → is_instance ty v = true.
Proof.
  induction props as [|[k' ty'] props IH]; simpl; intros Hc Hin Hk.
  - by apply elem_of_nil in Hin.
  - apply elem_of_cons in Hin as [[= <- <-]|Hin].
    + rewrite Hk in Hc. by destruct (is_instance ty v).
    + destruct (b !! k') as [v'|], ty' as [t|]; try by apply IH.
      destruct (is_instance t v'); [by apply IH | done].
Qed.


Lemma default_field_ne k v (b : dict) k' :
  k ≠ k' → default_field k v b !! k' = b !! k'.
Proof.
  intros Hne. unfold default_field. destruct (b !! k); [done|].
  by rewrite lookup_insert_ne.
Qed.


Lemma consistent_tick w n : consistent w → consistent (World (fs w) n).
Proof. intros Hw d i v. apply Hw. Qed.


Lemma found_fields block_id w b :
  consistent w → get_block E block_id None w = (Ret (VDict b), w) →
  b !! "id" = Some (VStr block_id) ∧ truthy (VDict b) = true.
Proof.
  intros Hw [[? _] | (? & d0 & ? & _ & _ & Hf)]%get_block_scan_Ret; [done|].
  apply Hw in Hf as (b0 & [= <-] & Hid & _). split; [done|].
  by eapply truthy_dict.
Qed.


End Identity.

Section Atomicity.

Context (E : env).

Lemma ensure_id_fs block_data w o w' :
  ensure_id E block_data w = (o, w') → fs w' = fs w.
Proof.
  unfold ensure_id. destruct (block_data !! "id"); [by intros [= _ <-]|].
  destruct (block_data !! "title") as [title|]; [|by intros [= _ <-]].
  unfold generate_id. rewrite !bind_unfold, now_unfold.
  destruct title; simpl; by intros [= _ <-].
Qed.

(** C6. A record that fails validation is not written: [create_block] and
    [update_block] raise the validator's error and leave every file as it
    was. *)
Theorem validation_failure_is_atomic :
  (∀ block_data w d w1 e,
     ensure_id E block_data w = (Ret d, w1) →
     _validate_block E (fill_defaults (clock E (ticks w1)) d) = Raise e →
     ∃ w', create_block E block_data w = (Raise e, w') ∧ fs w' = fs w) ∧
  (∀ block_id updates w b m e,
     get_block E block_id None w = (Ret (VDict b), w) →
     truthy (VDict b) = true →
     bump_version (<["updated_at" := VStr (clock E (ticks w))]> (updates ∪ b)) = Ret m →
     _validate_block E m = Raise e →
     ∃ w', update_block E block_id updates w = (Raise e, w') ∧ fs w' = fs w).
Proof.
  split.
  - intros block_data w d w1 e Hid Hval.
    exists (World (fs w1) (S (ticks w1))). split.
    + unfold create_block. rewrite bind_unfold, Hid, bind_unfold, now_unfold.
      rewrite bind_unfold. unfold lift. by rewrite Hval.
    + simpl. by eapply ensure_id_fs.
  - intros block_id updates w b m e Hget Htr Hbump Hval.
    exists (World (fs w) (S (ticks w))). split; [|done].
    unfold update_block. rewrite bind_unfold, Hget, Htr. simpl.
    rewrite bind_unfold, now_unfold, bind_unfold. unfold lift at 1.
    rewrite Hbump, bind_unfold. unfold lift. by rewrite Hval.
Qed.

End Atomicity.

Section Deletion.

Context (E : env).

(** C7, as the code has it.  [delete_block] on an id that no domain holds
    returns false and raises nothing.  In a store whose files lie where
    their fields say, [delete_block] on an id that is found removes the
    file of the first domain, in scanning order, that holds it, touches no
    other file and returns true; [get_block] then finds nothing provided
    no other domain holds a file of that id. *)
Theorem delete_then_get block_id w :
  ((∀ d, d ∈ DOMAINS → file_at w d (block_id ++ py ".json") = None) →
   delete_block E block_id w = (Ret false, w)) ∧
  (consistent w → ∀ b,
   get_block E block_id None w = (Ret (VDict b), w) →
   ∃ d w',
     b !! "domain" = Some (VStr d) ∧
     delete_block E block_id w = (Ret true, w') ∧
     file_at w' d (block_id ++ py ".json") = None ∧
     (∀ d' f', ¬ (d' = d ∧ f' = block_id ++ py ".json") →
        file_at w' d' f' = file_at w d' f') ∧
     ((∀ d', d' ∈ DOMAINS → d' ≠ d → file_at w d' (block_id ++ py ".json") = None) →
      get_block E block_id None w' = (Ret VNone, w'))).
Proof.
  split.
  - intros Hnone. unfold delete_block.
    rewrite bind_unfold. unfold get_block.
    by rewrite (get_block_scan_None E _ _ _ Hnone).
  - intros Hw b Hget.
    destruct (found_fields E _ _ _ Hw Hget) as [_ Htr].
    pose proof Hget as [[? _] | (ds1 & d & ds2 & Hds & Hpre & Hf)]%get_block_scan_Ret;
      [done|].
    pose proof (Hw _ _ _ Hf) as (b0 & [= <-] & _ & Hdom).
    assert (∃ w', remove d (block_id ++ py ".json") w = (Ret (), w')) as [w' Hrm].
    { unfold remove. unfold file_at in Hf.
      destruct (fs w !! d); [eauto | done]. }
    exists d, w'. split; [done|]. split; [|split; [|split]].
    + unfold delete_block. rewrite bind_unfold, Hget, Htr. simpl.
      rewrite Hdom, bind_unfold. unfold path_exists.
      rewrite bool_decide_eq_true_2 by (rewrite Hf; eauto).
      by rewrite bind_unfold, Hrm.
    + rewrite (file_at_remove _ _ _ _ _ _ Hrm). by rewrite decide_True.
    + intros d' f' Hne. rewrite (file_at_remove _ _ _ _ _ _ Hrm).
      by rewrite decide_False.
    + intros Honly. apply get_block_scan_None. intros d' Hd'.
      rewrite (file_at_remove _ _ _ _ _ _ Hrm). case_decide as Hdd; [done|].
      apply Honly; [done|]. intros ->. by apply Hdd.
Qed.

End Deletion.

Section Feedback.

Context (E : env).





End Feedback.

Section Versioning.

Context (E : env).

(** C2, as the code has it.  The payload is merged over the stored block
    before the version is read: a successful [update_block] increases by
    exactly 1 the minor component of the version the merged record carries
    and keeps its major component.  That version is the stored block's
    when the payload has no [version]; then 1.0 becomes 1.1, and 1.1
    becomes 1.2. *)
Theorem update_bumps_minor block_id updates w b v w' :
  get_block E block_id None w = (Ret (VDict b), w) →
  truthy (VDict b) = true →
  update_block E block_id updates w = (Ret v, w') →
  (updates !! "version" = None → (updates ∪ b) !! "version" = b !! "version") ∧
  ∀ version, (updates ∪ b) !! "version" = Some (VStr version) →
    ∃ b' major minor,
      v = VDict b' ∧
      parse_version version = Ret (major, minor) ∧
      b' !! "version" = Some (VStr (format_version major (minor + 1))) ∧
      parse_version (format_version major (minor + 1)) = Ret (major, (minor + 1)%Z) ∧
      (version = py "1.0" → b' !! "version" = Some (VStr (py "1.1"))) ∧
      (version = py "1.1" → b' !! "version" = Some (VStr (py "1.2"))).
Proof.
  intros Hget Htr Hup. split.
  - intros Hnone. by apply lookup_union_r.
  - intros version Hv.
    apply (update_block_Ret E _ _ _ _ _ _ Hget Htr) in Hup
      as (m & -> & Hbump & _ & _).
    apply bump_version_Ret in Hbump.
    rewrite lookup_insert_ne, Hv in Hbump by done.
    destruct Hbump as (s & major & minor & [= <-] & Hp & ->).
    eexists _, major, minor. split; [done|]. split; [done|].
    rewrite lookup_insert_eq. split; [done|].
    split; [apply parse_format_version|].
    split; intros ->; vm_compute in Hp; by injection Hp as <- <-.
Qed.

End Versioning.

Section Scans.

Lemma load_files_keep d files : load_files files = (omap (keep d) files).*2.
Proof.
  induction files as [|[f c] files IH]; simpl; [done|].
  unfold keep at 1. simpl.
  destruct (endswith (py ".json") f), c; simpl; by rewrite ?IH.
Qed.

Lemma load_domains_readable tree domains :
  load_domains tree domains = (readable_files tree domains).*2.
Proof.
  unfold readable_files.
  induction domains as [|d domains IH]; [done|].
  rewrite bind_cons, fmap_app, <- IH. cbn [load_domains].
  destruct (tree !! d) as [dir|]; [|done]. by rewrite (load_files_keep d).
Qed.

Lemma elem_of_readable_files tree domains d f v :
  (d, f, v) ∈ readable_files tree domains ↔
  d ∈ domains ∧ endswith (py ".json") f = true ∧ tree !! d ≫= (.!! f) = Some (Json v).
Proof.
  unfold readable_files. rewrite list_elem_of_bind. split.
  - intros (d' & Hin & Hd'). destruct (tree !! d') as [dir|] eqn:Hdir.
    + apply list_elem_of_omap in Hin as ([f' c] & Hfc & Hkeep).
      unfold keep in Hkeep. simpl in Hkeep.
      destruct c as [|v']; [done|].
      destruct (endswith (py ".json") f') eqn:He; [|done].
      injection Hkeep as -> -> ->.
      apply elem_of_map_to_list in Hfc. rewrite Hdir. simpl. done.
    + by apply elem_of_nil in Hin.
  - intros (Hd & He & Hf). exists d. split; [|done].
    destruct (tree !! d) as [dir|]; [|done]. simpl in Hf.
    apply list_elem_of_omap. exists (f, Json v). split.
    + by apply elem_of_map_to_list.
    + unfold keep. simpl. by rewrite He.
Qed.


Lemma search_files_filter terms files acc :
  (∀ f v, (f, Json v) ∈ files → endswith (py ".json") f = true →
     ∃ t, search_text v = Ret t) →
  search_files terms files acc = Ret (acc ++ filter (λ v, hit terms v = true) (load_files files)).
Proof.
  revert acc. induction files as [|[f c] files IH]; intros acc Hok; simpl.
  - by rewrite app_nil_r.
  - assert (∀ f v, (f, Json v) ∈ files → endswith (py ".json") f = true →
              ∃ t, search_text v = Ret t) as Hok'.
    { intros f' v' Hin. apply Hok. by right. }
    destruct (endswith (py ".json") f) eqn:He; simpl; [|by apply IH].
    destruct c as [|v]; [by apply IH|].
    destruct (Hok f v) as [t Ht]; [by left | done |].
    assert (block_matches terms v = Ret (forallb (λ term, contains term t) terms))
      as Hbm by (unfold block_matches; by rewrite Ht).
    rewrite Hbm. set (hb := forallb _ terms) in *. simpl. destruct hb.
    + rewrite filter_cons_True by (unfold hit; by rewrite Hbm).
      rewrite IH by done. by rewrite <- app_assoc.
    + rewrite filter_cons_False by (unfold hit; by rewrite Hbm).
      by apply IH.
Qed.

Lemma search_domains_filter tree terms domains acc :
  (∀ d f v, d ∈ domains → endswith (py ".json") f = true →
     tree !! d ≫= (.!! f) = Some (Json v) → ∃ t, search_text v = Ret t) →
  search_domains tree terms domains acc =
    Ret (acc ++ filter (λ v, hit terms v = true) (load_domains tree domains)).
Proof.
  revert acc. induction domains as [|d domains IH]; intros acc Hok; simpl.
  - by rewrite app_nil_r.
  - assert (∀ d f v, d ∈ domains → endswith (py ".json") f = true →
              tree !! d ≫= (.!! f) = Some (Json v) → ∃ t, search_text v = Ret t)
      as Hok'.
    { intros d' f v Hin. apply Hok. by right. }
    destruct (tree !! d) as [dir|] eqn:Hdir; [|by apply IH].
    rewrite search_files_filter.
    + simpl. rewrite IH by done. by rewrite filter_app, app_assoc.
    + intros f v Hin He. apply (Hok d f v); [by left | done |].
      rewrite Hdir. simpl. by apply elem_of_map_to_list.
Qed.

End Scans.

Section Search.

Context (E : env).

Lemma NoDup_scanned domain : NoDup (scanned domain).
Proof.
  assert (NoDup DOMAINS) as Hd by (apply (bool_decide_unpack _); vm_compute; exact I).
  destruct domain as [[|c d]|]; simpl; try done.
  apply NoDup_singleton.
Qed.

Lemma searchable_files tree domains :
  forallb (λ x, searchable x.2) (readable_files tree domains) = true →
  ∀ d f v, d ∈ domains → endswith (py ".json") f = true →
    tree !! d ≫= (.!! f) = Some (Json v) → ∃ t, search_text v = Ret t.
Proof.
  rewrite forallb_forall. intros Hall d f v Hd He Hf.
  specialize (Hall (d, f, v)). unfold searchable in Hall. simpl in Hall.
  destruct (search_text v) as [t|]; [eauto|].
  discriminate Hall. apply list_elem_of_In, elem_of_readable_files. done.
Qed.

Lemma search_blocks_filter query domain w :
  forallb (λ x, searchable x.2) (readable_files (fs w) (scanned domain)) = true →
  search_blocks E query domain w =
    (Ret (filter (λ v, hit (split (lower query)) v = true)
            (readable_files (fs w) (scanned domain)).*2), w).
Proof.
  intros Hs. unfold search_blocks. fold (scanned domain).
  rewrite search_domains_filter by (by apply searchable_files).
  by rewrite load_domains_readable.
Qed.


(** The search text of a block whose title and content are strings and
    whose tags are a list of strings. *)
Lemma search_text_typed (b : dict) title content tags :
  b !! "title" = Some (VStr title) → b !! "content" = Some (VStr content) →
  b !! "tags" = Some (VList (VStr <$> tags)) →
  search_text (VDict b) =
    Ret (lower title ++ py " " ++ lower content ++ py " " ++ join (py " ") tags).
Proof.
  intros Ht Hc Hg. unfold search_text, get_lower. rewrite Ht, Hc, Hg. simpl.
  replace (mapM as_str (VStr <$> tags)) with (Some tags); [done|].
  symmetry. apply mapM_Some. clear Hg.
  induction tags as [|t tags IH]; [constructor | rewrite fmap_cons; by constructor].
Qed.

(** Where the tags are already in lower case, the code's test is the
    specification's. *)
Lemma block_matches_spec (b : dict) query title content tags :
  b !! "title" = Some (VStr title) → b !! "content" = Some (VStr content) →
  b !! "tags" = Some (VList (VStr <$> tags)) →
  Forall (λ t, lower t = t) tags →
  block_matches (split (lower query)) (VDict b) =
    Ret (spec_matches query title content tags).
Proof.
  intros Ht Hc Hg Hlow. unfold block_matches.
  rewrite (search_text_typed _ _ _ _ Ht Hc Hg). simpl.
  unfold spec_matches, spec_search_text.
  replace (lower <$> tags) with tags; [done|].
  clear Hg. induction Hlow as [|t l Ht' _ IH]; [done|].
  by rewrite fmap_cons, Ht', <- IH.
Qed.

(** A word of the query occurs in the specification's search text exactly
    when it occurs in the lower-cased title, content, or one of the tags. *)
Lemma word_in_spec_search_text term title content tags :
  token term →
  contains term (spec_search_text title content tags) =
    contains term (lower title) || contains term (lower content)
    || existsb (contains term) (lower <$> tags).
Proof.
  intros Htok. pose proof (token_no_space _ Htok) as Hsp.
  unfold spec_search_text.
  assert (∀ a b, contains term (a ++ py " " ++ b)
                 = contains term a || contains term b) as Hsep.
  { intros a b. by apply (contains_sep term a 32 b). }
  rewrite !Hsep.
  rewrite contains_join by (done || apply Htok).
  by rewrite orb_assoc.
Qed.

End Search.

Section Exporting.

Context (E : env).

Lemma markdown_block_section acc b :
  markdown_block E acc (VDict b) = Ret (acc ++ section E b).
Proof.
  unfold markdown_block, section. cbv zeta. f_equal.
  rewrite <- !app_assoc. reflexivity.
Qed.



End Exporting.

(** ** Further properties of the manager *)

(** ** The validator, whatever the schema *)

Section Validation.

Context (E : env).

Lemma check_required_iff fields (b : dict) :
  check_required fields b = Ret () ↔ ∀ f, f ∈ fields → is_Some (b !! f).
Proof.
  induction fields as [|f fields IH]; simpl.
  - split; [|reflexivity]. intros _ f Hf. apply elem_of_nil in Hf. destruct Hf.
  - destruct (b !! f) eqn:Hf.
    + rewrite IH. split.
      * intros H g [->|Hg]%elem_of_cons; [rewrite Hf; eauto | auto].
      * intros H g Hg. apply H. by right.
    + split; [discriminate|]. intros H.
      destruct (H f) as [? Hx]; [by left|]. congruence.
Qed.

Lemma check_required_Raise fields (b : dict) e :
  check_required fields b = Raise e →
  ∃ pre f post, fields = pre ++ f :: post ∧
    (∀ g, g ∈ pre → is_Some (b !! g)) ∧ b !! f = None ∧
    e = ValueError (py "Missing required field: " ++ py f).
Proof.
  induction fields as [|f fields IH]; simpl; [discriminate|].
  destruct (b !! f) eqn:Hf.
  - intros (pre & g & post & -> & Hpre & Hg & ->)%IH.
    exists (f :: pre), g, post. repeat split; [|assumption].
    intros h [->|Hh]%elem_of_cons; [rewrite Hf; eauto | auto].
  - intros [= <-]. exists [], f, fields. repeat split; [|assumption].
    intros g Hg. apply elem_of_nil in Hg. destruct Hg.
Qed.

Lemma check_types_iff props (b : dict) :
  check_types props b = Ret () ↔
  ∀ f ty v, (f, Some ty) ∈ props → b !! f = Some v → is_instance ty v = true.
Proof.
  split; [intros H f ty v; by apply check_types_Ret|].
  induction props as [|[f ty] props IH]; intros H; simpl; [reflexivity|].
  assert (check_types props b = Ret ()) as Hrest.
  { apply IH. intros g ty' v Hin. apply H. by right. }
  destruct (b !! f) as [v|] eqn:Hf; [|assumption].
  destruct ty as [ty|]; [|assumption].
  rewrite (H f ty v); [assumption|by left|assumption].
Qed.

Lemma check_types_Raise props (b : dict) e :
  check_types props b = Raise e →
  ∃ pre f ty post v, props = pre ++ (f, Some ty) :: post ∧
    check_types pre b = Ret () ∧
    b !! f = Some v ∧ is_instance ty v = false ∧
    e = ValueError (py "Field " ++ py f ++ py " should be " ++ type_phrase ty).
Proof.
  induction props as [|[f ty] props IH]; simpl; [discriminate|].
  assert (∀ (Hhead : check_types [(f, ty)] b = Ret ()),
    check_types props b = Raise e →
    ∃ pre g ty' post v, (f, ty) :: props = pre ++ (g, Some ty') :: post ∧
      check_types pre b = Ret () ∧
      b !! g = Some v ∧ is_instance ty' v = false ∧
      e = ValueError (py "Field " ++ py g ++ py " should be " ++ type_phrase ty'))
    as Hrest.
  { intros Hhead (pre & g & ty' & post & v & -> & Hpre & Hg & Hty & ->)%IH.
    exists ((f, ty) :: pre), g, ty', post, v. repeat split; try assumption.
    simpl in *. destruct (b !! f) as [x|]; [|assumption].
    destruct ty as [ty|]; [|assumption].
    destruct (is_instance ty x); [assumption|discriminate]. }
  simpl in Hrest.
  destruct (b !! f) as [x|] eqn:Hf; [|by apply Hrest; destruct ty].
  destruct ty as [ty|]; [|by apply Hrest].
  destruct (is_instance ty x) eqn:Hx; [by apply Hrest|].
  intros [= <-]. exists [], f, ty, props, x. repeat split; assumption.
Qed.

Lemma is_instance_names n v :
  n ∈ TYPE_NAMES → is_instance (py n) v = true ↔ instance_of n v.
Proof.
  unfold TYPE_NAMES. rewrite !elem_of_cons, elem_of_nil.
  intros [->|[->|[->|[->|[->|[->|[]]]]]]]; destruct v;
    vm_compute; split; (discriminate || tauto || reflexivity).
Qed.

Lemma is_instance_other ty v : ty ∉ py <$> TYPE_NAMES → is_instance ty v = true.
Proof.
  intros H.
  assert (∀ n, n ∈ TYPE_NAMES → str_eqb ty (py n) = false) as Hne.
  { intros n Hn. destruct (str_eqb ty (py n)) eqn:Hx; [|reflexivity].
    apply str_eqb_eq in Hx. exfalso. apply H. rewrite Hx.
    by apply list_elem_of_fmap_2. }
  unfold is_instance.
  rewrite (Hne "string"), (Hne "number"), (Hne "integer"), (Hne "boolean"),
    (Hne "array"), (Hne "object"); [reflexivity|..]; unfold TYPE_NAMES;
    repeat constructor.
Qed.

(** X4: [_validate_block] accepts a record exactly when every required field
    is present and every present field that the schema types is an instance
    of its type; [bool] values pass as integers and as numbers, and a type
    name other than the six is never checked. *)
Theorem validate_block_iff (b : dict) :
  (_validate_block E b = Ret () ↔
     (∀ f, f ∈ required (schema E) → is_Some (b !! f)) ∧
     (∀ f ty v, (f, Some ty) ∈ properties (schema E) → b !! f = Some v →
        is_instance ty v = true)) ∧
  (∀ n v, n ∈ TYPE_NAMES → is_instance (py n) v = true ↔ instance_of n v) ∧
  (∀ ty v, ty ∉ py <$> TYPE_NAMES → is_instance ty v = true).
Proof.
  split; [|split; [apply is_instance_names | apply is_instance_other]].
  unfold _validate_block. rewrite <- check_required_iff, <- check_types_iff.
  destruct (check_required (required (schema E)) b) as [[]|e]; simpl.
  - split; [intros H; split; [reflexivity|assumption] | intros [_ H]; assumption].
  - split; [discriminate | intros [H _]; discriminate].
Qed.

(** X5: the error [_validate_block] raises: the first required field, in the
    order of the schema, that the record lacks; if none is lacking, the first
    property, in the order of the schema, whose value is not of its type. *)
Theorem validate_block_error (b : dict) e :
  _validate_block E b = Raise e →
  (∃ pre f post, required (schema E) = pre ++ f :: post ∧
     (∀ g, g ∈ pre → is_Some (b !! g)) ∧ b !! f = None ∧
     e = ValueError (py "Missing required field: " ++ py f)) ∨
  ((∀ f, f ∈ required (schema E) → is_Some (b !! f)) ∧
   ∃ pre f ty post v, properties (schema E) = pre ++ (f, Some ty) :: post ∧
     (∀ g ty' x, (g, Some ty') ∈ pre → b !! g = Some x → is_instance ty' x = true) ∧
     b !! f = Some v ∧ is_instance ty v = false ∧
     e = ValueError (py "Field " ++ py f ++ py " should be " ++ type_phrase ty)).
Proof.
  unfold _validate_block.
  destruct (check_required (required (schema E)) b) as [[]|e'] eqn:Hreq; simpl.
  - intros (pre & f & ty & post & v & Hprops & Hpre & Hf & Hty & ->)%check_types_Raise.
    right. split; [by apply check_required_iff|].
    exists pre, f, ty, post, v. repeat split; try assumption.
    by apply check_types_iff.
  - intros [= <-]. left. by apply check_required_Raise.
Qed.

End Validation.

(** ** What the operations leave alone *)

Section Footprint.

Context (E : env).





















End Footprint.

(** ** The directories *)

Section Directories.

Context (E : env).

Lemma make_dirs_spec ds w :
  ∃ w', make_dirs ds w = (Ret (), w') ∧ ticks w' = ticks w ∧
    (∀ d, d ∈ ds → is_Some (fs w' !! d)) ∧
    (∀ d, is_Some (fs w !! d) → fs w' !! d = fs w !! d) ∧
    (∀ d, fs w !! d = None →
       fs w' !! d = if bool_decide (d ∈ ds) then Some ∅ else None).
Proof.
  revert w. induction ds as [|d0 ds IH]; intros w.
  - exists w. repeat split; try done. intros d Hd. apply elem_of_nil in Hd. destruct Hd.
  - cbn [make_dirs]. rewrite bind_unfold. unfold make_dir at 1.
    destruct (fs w !! d0) as [dir|] eqn:Hd0.
    + destruct (IH w) as (w' & -> & Ht & Hall & Hkeep & Hnew).
      exists w'. repeat split; try assumption.
      * intros d [->|Hd]%elem_of_cons; [|auto].
        rewrite Hkeep; rewrite Hd0; eauto.
      * intros d Hd. rewrite (Hnew d Hd).
        assert (d ≠ d0) by congruence.
        apply (f_equal (λ b : bool, if b then Some ∅ else None)).
        apply bool_decide_ext. rewrite elem_of_cons. tauto.
    + destruct (IH (World (<[d0 := ∅]> (fs w)) (ticks w)))
        as (w' & -> & Ht & Hall & Hkeep & Hnew). simpl in *.
      exists w'. repeat split; try assumption.
      * intros d [->|Hd]%elem_of_cons; [|auto].
        rewrite Hkeep; rewrite lookup_insert_eq; eauto.
      * intros d Hd. assert (d ≠ d0) as Hne by (intros ->; rewrite Hd0 in Hd; by destruct Hd).
        rewrite Hkeep; rewrite lookup_insert_ne by done; done.
      * intros d Hd. destruct (decide (d = d0)) as [->|Hne].
        -- rewrite Hkeep; rewrite lookup_insert_eq; [|eauto].
           rewrite bool_decide_eq_true_2; [done|by left].
        -- rewrite Hnew by (by rewrite lookup_insert_ne).
           apply (f_equal (λ b : bool, if b then Some ∅ else None)).
           apply bool_decide_ext. rewrite elem_of_cons. tauto.
Qed.

Lemma make_dirs_idem ds w :
  (∀ d, d ∈ ds → is_Some (fs w !! d)) → make_dirs ds w = (Ret (), w).
Proof.
  induction ds as [|d0 ds IH]; intros H; [reflexivity|].
  cbn [make_dirs]. rewrite bind_unfold. unfold make_dir at 1.
  destruct (H d0) as [dir ->]; [by left|].
  apply IH. intros d Hd. apply H. by right.
Qed.

(** X19: [_ensure_dirs] makes the five domain directories that are missing,
    each empty, and nothing else: no file and no existing directory changes,
    and running it again changes nothing. *)
Theorem ensure_dirs_spec w :
  ∃ w', _ensure_dirs w = (Ret (), w') ∧
    initialised w' ∧
    ticks w' = ticks w ∧
    (∀ d f, file_at w' d f = file_at w d f) ∧
    (∀ d, is_Some (fs w !! d) → fs w' !! d = fs w !! d) ∧
    (∀ d, d ∉ DOMAINS → fs w' !! d = fs w !! d) ∧
    _ensure_dirs w' = (Ret (), w') ∧
    (initialised w → w' = w).
Proof.
  destruct (make_dirs_spec DOMAINS w) as (w' & Hrun & Ht & Hall & Hkeep & Hnew).
  exists w'. split; [exact Hrun|]. split; [exact Hall|]. split; [exact Ht|].
  repeat split.
  - intros d f. unfold file_at. destruct (fs w !! d) as [dir|] eqn:Hd.
    + rewrite Hkeep; rewrite Hd; eauto.
    + rewrite (Hnew d Hd). destruct (bool_decide _); reflexivity.
  - exact Hkeep.
  - intros d Hd. destruct (fs w !! d) as [dir|] eqn:Hdd.
    + rewrite Hkeep; rewrite Hdd; eauto.
    + rewrite (Hnew d Hdd). by rewrite bool_decide_eq_false_2.
  - by apply make_dirs_idem.
  - intros Hinit. unfold _ensure_dirs in Hrun.
    rewrite (make_dirs_idem _ _ Hinit) in Hrun. congruence.
Qed.



End Directories.

(** ** Creation *)

Section Creation.

Context (E : env).

Lemma lookup_default_field k v (d : dict) k' :
  default_field k v d !! k' =
    match d !! k' with
    | Some x => Some x
    | None => if decide (k' = k) then Some v else None
    end.
Proof.
  unfold default_field. destruct (decide (k' = k)) as [->|Hne].
  - destruct (d !! k) eqn:Hk; [by rewrite Hk | by rewrite lookup_insert_eq].
  - destruct (d !! k) eqn:Hk; [by destruct (d !! k')|].
    rewrite lookup_insert_ne by done. by destruct (d !! k').
Qed.

Lemma fill_defaults_lookup now_ (d : dict) k :
  fill_defaults now_ d !! k =
    if decide (k = "updated_at") then Some (VStr now_)
    else match d !! k with
         | Some x => Some x
         | None => list_to_map (M := dict) (DEFAULTS now_) !! k
         end.
Proof.
  unfold fill_defaults. cbv zeta. rewrite !lookup_default_field.
  destruct (decide (k = "updated_at")) as [->|Hne].
  - rewrite lookup_insert_eq. reflexivity.
  - rewrite lookup_insert_ne by done. rewrite lookup_default_field.
    destruct (d !! k) as [x|]; [reflexivity|].
    unfold DEFAULTS. cbn [list_to_map foldr uncurry fst snd].
    repeat (case_decide;
            [subst k; vm_compute; reflexivity
            | rewrite lookup_insert_ne by done]).
    rewrite lookup_empty. reflexivity.
Qed.

Lemma elem_of_DEFAULTS now_ k v :
  (k, v) ∈ DEFAULTS now_ → list_to_map (M := dict) (DEFAULTS now_) !! k = Some v.
Proof.
  intros H. apply elem_of_list_to_map; [|exact H].
  apply (bool_decide_unpack _). vm_compute. reflexivity.
Qed.

Lemma generate_id_str t w :
  generate_id E (VStr t) w =
    (Ret (slug t ++ py "_"
          ++ take 8 (md5_hexdigest E (t ++ py "_" ++ clock E (ticks w)))),
     World (fs w) (S (ticks w))).
Proof. reflexivity. Qed.

Lemma ensure_id_Ret block_data w d w1 :
  ensure_id E block_data w = (Ret d, w1) →
  (∃ i, block_data !! "id" = Some i ∧ d = block_data ∧ w1 = w) ∨
  (∃ t, block_data !! "id" = None ∧ block_data !! "title" = Some (VStr t) ∧
     d = <["id" := VStr (slug t ++ py "_"
            ++ take 8 (md5_hexdigest E (t ++ py "_" ++ clock E (ticks w))))]> block_data ∧
     w1 = World (fs w) (S (ticks w))).
Proof.
  unfold ensure_id. destruct (block_data !! "id") as [i|] eqn:Hid.
  - intros [= <- <-]. left. by exists i.
  - destruct (block_data !! "title") as [title|]; [|discriminate].
    destruct title as [| | | |t| |]; try discriminate.
    rewrite bind_unfold, generate_id_str. intros [= <- <-].
    right. by exists t.
Qed.

Lemma create_block_Ret block_data w v w' :
  create_block E block_data w = (Ret v, w') →
  ∃ d w1, ensure_id E block_data w = (Ret d, w1) ∧
    v = VDict (fill_defaults (clock E (ticks w1)) d) ∧
    _validate_block E (fill_defaults (clock E (ticks w1)) d) = Ret () ∧
    _save_block E (fill_defaults (clock E (ticks w1)) d)
      (World (fs w1) (S (ticks w1))) = (Ret (), w').
Proof.
  unfold create_block.
  intros (d & w1 & Hid & H)%bind_Ret. exists d, w1. split; [exact Hid|].
  apply bind_Ret in H as (t & w2 & Hnow & H).
  rewrite now_unfold in Hnow. injection Hnow as <- <-.
  apply bind_Ret in H as ([] & w3 & [Hval ->]%lift_Ret & H).
  apply bind_Ret in H as ([] & w4 & Hsave & [= <- <-]).
  done.
Qed.

(** X1: what [create_block] returns: every field of the caller but
    [updated_at] is kept as given; [updated_at] is the reading of the clock;
    each of the nine defaulted fields the caller left out has its default,
    [created_at] being that same reading; no other field appears, except the
    generated [id]; and the record has passed validation. *)
Theorem create_fills_defaults block_data w b w' :
  create_block E block_data w = (Ret (VDict b), w') →
  ∃ n, ticks w' = S n ∧
    (n = if block_data !! "id" is Some _ then ticks w else S (ticks w)) ∧
    b !! "updated_at" = Some (VStr (clock E n)) ∧
    (∀ k v, block_data !! k = Some v → k ≠ "updated_at" → b !! k = Some v) ∧
    (∀ k v, block_data !! k = None → (k, v) ∈ DEFAULTS (clock E n) →
       b !! k = Some v) ∧
    (∀ k, block_data !! k = None →
       k ∉ "id" :: "updated_at" :: (DEFAULTS (clock E n)).*1 → b !! k = None) ∧
    (block_data !! "id" = None →
     ∃ t, block_data !! "title" = Some (VStr t) ∧
       b !! "id" = Some (VStr (slug t ++ py "_"
         ++ take 8 (md5_hexdigest E (t ++ py "_" ++ clock E (ticks w)))))) ∧
    _validate_block E b = Ret ().
Proof.
  intros (d & w1 & Hid & [= ->] & Hval & Hsave)%create_block_Ret.
  exists (ticks w1).
  assert (ticks w' = S (ticks w1)) as Ht.
  { apply _save_block_Ret in Hsave as (dm & i & _ & _ & Hw).
    unfold write_json in Hw. simpl in Hw.
    destruct (fs w1 !! dm); [|discriminate]. by injection Hw as <-. }
  split; [exact Ht|].
  assert (∀ k, k ≠ "id" → d !! k = block_data !! k) as Hd.
  { intros k Hk. apply ensure_id_Ret in Hid as [(i & _ & -> & _)|(t & _ & _ & -> & _)];
      [reflexivity | by rewrite lookup_insert_ne]. }
  assert (∀ v, block_data !! "id" = Some v → d !! "id" = Some v) as Hdi.
  { intros v Hv. apply ensure_id_Ret in Hid as [(i & _ & -> & _)|(t & Hn & _)];
      [exact Hv | congruence]. }
  split.
  { apply ensure_id_Ret in Hid as [(i & -> & _ & ->)|(t & -> & _ & _ & ->)];
      reflexivity. }
  split; [by rewrite fill_defaults_lookup|].
  split.
  { intros k v Hk Hne. rewrite fill_defaults_lookup.
    rewrite decide_False by done.
    destruct (decide (k = "id")) as [->|Hki];
      [by rewrite (Hdi _ Hk) | by rewrite Hd, Hk]. }
  split.
  { intros k v Hk Hin. rewrite fill_defaults_lookup.
    assert (k ≠ "updated_at" ∧ k ≠ "id") as [Hu Hi].
    { revert Hin. unfold DEFAULTS. rewrite !elem_of_cons, elem_of_nil.
      intros H; split; intros ->; repeat destruct H as [[=]|H]; destruct H. }
    rewrite decide_False by done. rewrite Hd, Hk by done.
    by apply elem_of_DEFAULTS. }
  split.
  { intros k Hk Hnot. rewrite fill_defaults_lookup.
    apply not_elem_of_cons in Hnot as [Hi Hnot].
    apply not_elem_of_cons in Hnot as [Hu Hnot].
    rewrite decide_False by done. rewrite Hd, Hk by done.
    by apply not_elem_of_list_to_map_1. }
  split; [|exact Hval].
  intros Hnone. apply ensure_id_Ret in Hid as [(i & Hi & _)|(t & _ & Ht' & -> & _)];
    [congruence|].
  exists t. split; [exact Ht'|].
  rewrite fill_defaults_lookup. rewrite decide_False by done.
  by rewrite lookup_insert_eq.
Qed.



End Creation.

(** ** Operations on a block that is found, and on one that is not *)

Section Found.

Context (E : env).

Lemma NoDup_DOMAINS : NoDup DOMAINS.
Proof. exact (NoDup_scanned None). Qed.

Lemma found_place block_id w b :
  consistent w →
  get_block E block_id None w = (Ret (VDict b), w) →
  ∃ ds1 d ds2 dir,
    DOMAINS = ds1 ++ d :: ds2 ∧
    (∀ d', d' ∈ ds1 → file_at w d' (block_id ++ py ".json") = None) ∧
    file_at w d (block_id ++ py ".json") = Some (Json (VDict b)) ∧
    fs w !! d = Some dir ∧
    b !! "id" = Some (VStr block_id) ∧ b !! "domain" = Some (VStr d) ∧
    truthy (VDict b) = true.
Proof.
  intros Hw [[? _] | (ds1 & d & ds2 & HD & Hnone & Hf)]%get_block_scan_Ret; [done|].
  destruct (Hw _ _ _ Hf) as (b0 & [= <-] & Hid & Hdom).
  assert (is_Some (fs w !! d)) as [dir Hdir].
  { unfold file_at in Hf. destruct (fs w !! d); [eauto | discriminate]. }
  exists ds1, d, ds2, dir. repeat split; try assumption.
  by eapply truthy_dict.
Qed.

(** Saving a record under the identifier and in the domain of the block
    that was found. *)
Lemma resave block_id w b m n :
  consistent w →
  get_block E block_id None w = (Ret (VDict b), w) →
  m !! "id" = Some (VStr block_id) → m !! "domain" = b !! "domain" →
  ∃ w' d,
    _save_block E m (World (fs w) n) = (Ret (), w') ∧
    ticks w' = n ∧ consistent w' ∧
    get_block E block_id None w' = (Ret (VDict m), w') ∧
    d ∈ DOMAINS ∧ b !! "domain" = Some (VStr d) ∧
    file_at w' d (block_id ++ py ".json") = Some (Json (VDict m)) ∧
    (∀ d' f', ¬ (d' = d ∧ f' = block_id ++ py ".json") →
       file_at w' d' f' = file_at w d' f').
Proof.
  intros Hw Hget Hi Hd.
  destruct (found_place _ _ _ Hw Hget)
    as (ds1 & d & ds2 & dir & HD & Hnone & Hf & Hdir & Hbi & Hbd & _).
  rewrite Hbd in Hd.
  set (w' := World (<[d := <[block_id ++ py ".json" := Json (VDict m)]> dir]> (fs w)) n).
  assert (write_json d (json_name E (VStr block_id)) (VDict m) (World (fs w) n)
          = (Ret (), w')) as Hwrite.
  { unfold write_json. simpl. by rewrite Hdir. }
  pose proof (λ d' f', file_at_write _ _ _ _ _ d' f' Hwrite) as Hat.
  change (json_name E (VStr block_id)) with (block_id ++ py ".json") in Hat.
  assert (file_at w' d (block_id ++ py ".json") = Some (Json (VDict m))) as Hnew.
  { rewrite Hat. by rewrite decide_True. }
  exists w', d. split; [|split; [reflexivity|split; [|split; [|split; [|split; [|split]]]]]].
  - unfold _save_block. by rewrite Hd, Hi.
  - apply (consistent_write E (World (fs w) n) w' m d block_id);
      [by apply consistent_tick | exact Hd | exact Hi | exact Hwrite].
  - unfold get_block. rewrite HD. apply get_block_scan_first; [|exact Hnew].
    intros d' Hd'. rewrite Hat. rewrite decide_False; [by apply Hnone|].
    intros [-> _]. pose proof NoDup_DOMAINS as Hnd. rewrite HD in Hnd.
    apply NoDup_app in Hnd as (_ & Hnd & _). apply (Hnd _ Hd'). by left.
  - rewrite HD. apply elem_of_app. right. by left.
  - exact Hbd.
  - exact Hnew.
  - intros d' f' Hne. rewrite Hat. by rewrite decide_False.
Qed.


(** X8: an identifier that is not found.  When no domain directory holds a
    file of that name, or the first that does holds JSON that is false in a
    condition (the empty object, null, zero, an empty string or list),
    [update_block], [add_feedback] and [increment_usage] return [None] and
    [delete_block] returns [False]; nothing is written or removed and the
    clock is not read. *)
Theorem not_found_is_noop block_id w :
  (∀ d, d ∈ DOMAINS → file_at w d (block_id ++ py ".json") = None) ∨
  (∃ ds1 d ds2 v, DOMAINS = ds1 ++ d :: ds2 ∧
     (∀ d', d' ∈ ds1 → file_at w d' (block_id ++ py ".json") = None) ∧
     file_at w d (block_id ++ py ".json") = Some (Json v) ∧ truthy v = false) →
  (∀ updates, update_block E block_id updates w = (Ret VNone, w)) ∧
  (∀ feedback, add_feedback E block_id feedback w = (Ret VNone, w)) ∧
  increment_usage E block_id w = (Ret VNone, w) ∧
  delete_block E block_id w = (Ret false, w).
Proof.
  intros H.
  assert (∃ v, get_block E block_id None w = (Ret v, w) ∧ truthy v = false)
    as (v & Hget & Hv).
  { destruct H as [H|(ds1 & d & ds2 & v & HD & Hnone & Hf & Hv)].
    - exists VNone. split; [by apply get_block_scan_None | reflexivity].
    - exists v. split; [|exact Hv]. unfold get_block. rewrite HD.
      by apply get_block_scan_first. }
  unfold update_block, add_feedback, increment_usage, delete_block.
  repeat split; intros; rewrite bind_unfold, Hget, Hv; reflexivity.
Qed.




(** X12: reading after writing, in a store whose files lie where their
    fields say: after a successful [update_block] whose payload carries
    neither [id] nor [domain], after [add_feedback] and after
    [increment_usage], [get_block] on the same identifier returns the very
    record the operation returned. *)
Theorem get_after_write block_id w b :
  consistent w →
  get_block E block_id None w = (Ret (VDict b), w) →
  (∀ updates v w',
     updates !! "id" = None → updates !! "domain" = None →
     update_block E block_id updates w = (Ret v, w') →
     get_block E block_id None w' = (Ret v, w')) ∧
  (∀ feedback v w',
     add_feedback E block_id feedback w = (Ret v, w') →
     get_block E block_id None w' = (Ret v, w')) ∧
  (∀ v w',
     increment_usage E block_id w = (Ret v, w') →
     get_block E block_id None w' = (Ret v, w')).
Proof.
  intros Hw Hget.
  destruct (found_fields _ _ _ _ Hw Hget) as [Hid Htr].
  assert (∀ m n w', m !! "id" = Some (VStr block_id) → m !! "domain" = b !! "domain" →
            _save_block E m (World (fs w) n) = (Ret (), w') →
            get_block E block_id None w' = (Ret (VDict m), w')) as Hsaved.
  { intros m n w' Hmi Hmd Hsave.
    destruct (resave block_id w b m n Hw Hget Hmi Hmd) as (w1 & d & Hsave1 & _ & _ & Hg & _).
    rewrite Hsave in Hsave1. by injection Hsave1 as <-. }
  split; [|split].
  - intros updates v w' Hui Hud Hup.
    destruct (update_block_Ret E _ _ _ _ _ _ Hget Htr Hup)
      as (m & -> & Hbump & _ & Hsave).
    assert (∀ k, k ≠ "version" → k ≠ "updated_at" → updates !! k = None →
              m !! k = b !! k) as Hm.
    { intros k Hk Hk' Hu. apply bump_version_Ret in Hbump.
      destruct (_ !! "version") in Hbump.
      - destruct Hbump as (s & major & minor & _ & _ & ->).
        rewrite !lookup_insert_ne by done. by apply lookup_union_r.
      - rewrite Hbump. rewrite lookup_insert_ne by done. by apply lookup_union_r. }
    eapply Hsaved; [| |exact Hsave].
    + by rewrite Hm.
    + by rewrite Hm.
  - intros feedback v w' Hadd.
    destruct (add_feedback_Ret E _ _ _ _ _ _ Hget Htr Hadd)
      as (old & rs & m & Hold & _ & Hm & -> & Hsave).
    assert (∀ k, k ≠ "feedback" → k ≠ "rating" → m !! k = b !! k) as Hk.
    { intros k Hk1 Hk2. cbv zeta in Hm. destruct rs.
      - rewrite Hm. rewrite lookup_insert_ne by done. by apply default_field_ne.
      - destruct Hm as (q & _ & ->). rewrite !lookup_insert_ne by done.
        by apply default_field_ne. }
    eapply Hsaved; [| |exact Hsave].
    + by rewrite Hk.
    + by rewrite Hk.
  - intros v w' Hinc.
    destruct (increment_usage_Ret E _ _ _ _ _ Hget Htr Hinc) as (c & -> & _ & Hsave).
    replace w with (World (fs w) (ticks w)) in Hsave at 1 by (by destruct w).
    eapply Hsaved; [| |exact Hsave]; by rewrite lookup_insert_ne.
Qed.

(** X14: [add_feedback] appends: the feedback sequence of the returned block
    is the stored one, taken as empty when the block has none, followed by
    the caller's entry, in which [id] and [date] are set anew whatever the
    caller gave; no field of the block other than [feedback] and [rating]
    changes, and the clock is read twice. *)
Theorem feedback_is_appended block_id feedback w b v w' :
  get_block E block_id None w = (Ret (VDict b), w) →
  truthy (VDict b) = true →
  add_feedback E block_id feedback w = (Ret v, w') →
  ∃ m old, v = VDict m ∧
    (b !! "feedback" = Some (VList old) ∨ (b !! "feedback" = None ∧ old = [])) ∧
    m !! "feedback" = Some (VList (old ++ [VDict (stamped E block_id feedback w)])) ∧
    (∀ k, k ≠ "feedback" → k ≠ "rating" → m !! k = b !! k) ∧
    stamped E block_id feedback w !! "date" = Some (VStr (clock E (S (ticks w)))) ∧
    (∃ suffix, stamped E block_id feedback w !! "id"
       = Some (VStr (slug (py "feedback_" ++ block_id) ++ py "_" ++ suffix))
       ∧ (length suffix ≤ 8)%nat) ∧
    (∀ k, k ≠ "id" → k ≠ "date" →
       stamped E block_id feedback w !! k = feedback !! k) ∧
    ticks w' = S (S (ticks w)).
Proof.
  intros Hget Htr Hadd.
  destruct (add_feedback_Ret E _ _ _ _ _ _ Hget Htr Hadd)
    as (old & rs & m & Hold & _ & Hm & -> & Hsave).
  exists m, old. split; [reflexivity|]. cbv zeta in Hm.
  split.
  { rewrite lookup_default_field in Hold.
    destruct (b !! "feedback") as [x|]; [left; congruence|].
    right. split; [reflexivity|]. rewrite decide_True in Hold by done. congruence. }
  split.
  { destruct rs; [rewrite Hm; by rewrite lookup_insert_eq|].
    destruct Hm as (q & _ & ->). rewrite lookup_insert_ne by done.
    by rewrite lookup_insert_eq. }
  split.
  { intros k Hk1 Hk2. destruct rs.
    - rewrite Hm. rewrite lookup_insert_ne by done. by apply default_field_ne.
    - destruct Hm as (q & _ & ->). rewrite !lookup_insert_ne by done.
      by apply default_field_ne. }
  split; [unfold stamped; by rewrite lookup_insert_eq|].
  split.
  { eexists. unfold stamped. rewrite lookup_insert_ne by done.
    rewrite lookup_insert_eq. split; [reflexivity|].
    rewrite length_take. lia. }
  split.
  { intros k Hk1 Hk2. unfold stamped. by rewrite !lookup_insert_ne. }
  apply _save_block_Ret in Hsave as (d & i & _ & _ & Hw).
  unfold write_json in Hw. simpl in Hw. destruct (fs w !! d); [|discriminate].
  by injection Hw as <-.
Qed.

End Found.

(** ** The invariants of the store *)

Section Invariants.

Context (E : env).

Lemma write_json_dirs d f v w w' :
  write_json d f v w = (Ret (), w') →
  ∀ d', is_Some (fs w' !! d') ↔ is_Some (fs w !! d').
Proof.
  unfold write_json. destruct (fs w !! d) as [dir|] eqn:Hd; [|discriminate].
  intros [= <-] d'. simpl. destruct (decide (d' = d)) as [->|Hne].
  - rewrite lookup_insert_eq, Hd. split; eauto.
  - by rewrite lookup_insert_ne.
Qed.













End Invariants.

(** ** Searching, beyond the blank query *)

Section Queries.

Context (E : env).


Lemma split_go_app_space w a b :
  split_go w (a ++ 32 :: b) = split_go w a ++ split b.
Proof.
  revert w. induction a as [|c a IH]; intros w; simpl.
  - reflexivity.
  - destruct (is_space c); [by rewrite IH, app_assoc | apply IH].
Qed.

Lemma split_lower_app_space a b :
  split (lower (a ++ py " " ++ b)) = split (lower a) ++ split (lower b).
Proof.
  unfold lower. rewrite map_app. apply split_go_app_space.
Qed.

Lemma block_matches_app t1 t2 v :
  hit (t1 ++ t2) v = hit t1 v && hit t2 v.
Proof.
  unfold hit, block_matches. destruct (search_text v) as [t|e]; simpl; [|reflexivity].
  rewrite forallb_app. by destruct (forallb _ t1), (forallb _ t2).
Qed.

Lemma forallb_same_set {A} (p : A → bool) l1 l2 :
  (∀ x, x ∈ l1 ↔ x ∈ l2) → forallb p l1 = forallb p l2.
Proof.
  intros H. apply eq_true_iff_eq. rewrite !forallb_forall.
  split; intros Hp x Hx; apply Hp; apply list_elem_of_In; apply H;
    by apply list_elem_of_In.
Qed.

Lemma search_files_same_set t1 t2 files acc :
  (∀ x, x ∈ t1 ↔ x ∈ t2) → search_files t1 files acc = search_files t2 files acc.
Proof.
  intros H. revert acc. induction files as [|[f c] files IH]; intros acc; simpl;
    [reflexivity|].
  destruct (negb _); [apply IH|]. destruct c as [|v]; [apply IH|].
  unfold block_matches. destruct (search_text v) as [t|e]; simpl; [|reflexivity].
  rewrite (forallb_same_set _ t1 t2 H). destruct (forallb _ t2); apply IH.
Qed.

Lemma search_domains_same_set tree t1 t2 domains acc :
  (∀ x, x ∈ t1 ↔ x ∈ t2) →
  search_domains tree t1 domains acc = search_domains tree t2 domains acc.
Proof.
  intros H. revert acc. induction domains as [|d domains IH]; intros acc; simpl;
    [reflexivity|].
  destruct (tree !! d); [|apply IH].
  rewrite (search_files_same_set t1 t2 _ _ H).
  destruct (search_files t2 _ acc); simpl; [apply IH | reflexivity].
Qed.


(** X16: the words of a query are a conjunction.  The result for two queries
    joined by a space is the result for the first, filtered by the second,
    in the same order; and two queries with the same words after
    lower-casing, in any order and any number of times, have the same
    result, exception included. *)
Theorem search_conjunction domain w :
  (∀ q1 q2,
     forallb (λ x, searchable x.2) (readable_files (fs w) (scanned domain)) = true →
     ∃ r1, search_blocks E q1 domain w = (Ret r1, w) ∧
       search_blocks E (q1 ++ py " " ++ q2) domain w =
         (Ret (filter (λ v, hit (split (lower q2)) v = true) r1), w)) ∧
  (∀ q1 q2,
     (∀ t, t ∈ split (lower q1) ↔ t ∈ split (lower q2)) →
     search_blocks E q1 domain w = search_blocks E q2 domain w).
Proof.
  split.
  - intros q1 q2 Hok. eexists. split; [by apply search_blocks_filter|].
    rewrite search_blocks_filter by done. do 2 f_equal.
    rewrite split_lower_app_space.
    rewrite list_filter_filter. apply list_filter_iff. intros v.
    rewrite block_matches_app, andb_true_iff. tauto.
  - intros q1 q2 H. unfold search_blocks.
    by rewrite (search_domains_same_set _ _ _ _ _ H).
Qed.

Lemma DOMAINS_nonempty d : d ∈ DOMAINS → d ≠ [].
Proof.
  revert d. apply Forall_forall.
  repeat constructor; intros H; vm_compute in H; discriminate H.
Qed.

Lemma search_files_Raise terms files acc f v :
  (f, Json v) ∈ files → endswith (py ".json") f = true → searchable v = false →
  ∃ e, search_files terms files acc = Raise e.
Proof.
  intros Hin He Hv. revert acc.
  induction files as [|[f' c] files IH]; intros acc; [by apply elem_of_nil in Hin|].
  apply elem_of_cons in Hin as [[= <- <-]|Hin]; simpl.
  - rewrite He. simpl. unfold block_matches, searchable in *.
    destruct (search_text v) as [|e]; [discriminate|]. by exists e.
  - destruct (negb _); [by apply IH|]. destruct c as [|v']; [by apply IH|].
    destruct (block_matches terms v') as [h|e]; simpl; [|by exists e].
    by apply IH.
Qed.

Lemma search_domains_Raise tree terms domains acc d f v :
  d ∈ domains → endswith (py ".json") f = true →
  tree !! d ≫= (.!! f) = Some (Json v) → searchable v = false →
  ∃ e, search_domains tree terms domains acc = Raise e.
Proof.
  intros Hd He Hf Hv. revert acc.
  induction domains as [|d' domains IH]; intros acc; [by apply elem_of_nil in Hd|].
  simpl. destruct (decide (d' = d)) as [->|Hne].
  - destruct (tree !! d) as [dir|] eqn:Hdir; [|discriminate]. simpl in Hf.
    destruct (search_files_Raise terms (map_to_list dir) acc f v) as [e ->];
      [by apply elem_of_map_to_list | done | done |].
    by exists e.
  - apply elem_of_cons in Hd as [->|Hd]; [done|].
    destruct (tree !! d'); [|by apply IH].
    destruct (search_files _ _ acc) as [r|e]; simpl; [by apply IH | by exists e].
Qed.

Lemma markdown_loop_Raise acc blocks v :
  v ∈ blocks → (∀ b, v ≠ VDict b) →
  markdown_loop E acc blocks = Raise AttributeError.
Proof.
  intros Hin Hv. revert acc.
  induction blocks as [|v' blocks IH]; intros acc; [by apply elem_of_nil in Hin|].
  cbn [markdown_loop].
  destruct v' as [| | | | | |b];
    try reflexivity.
  rewrite markdown_block_section. simpl. apply IH.
  apply elem_of_cons in Hin as [->|Hin]; [by destruct (Hv b) | done].
Qed.

(** X17: a readable [.json] file without a search text: JSON that is not an
    object, or an object whose title or content is not a string or whose
    tags cannot be joined.  Every [search_blocks] that scans its directory
    raises, whatever the query; [get_blocks_by_domain] and the JSON export
    return its content all the same; and if it is not an object, the
    markdown export raises [AttributeError]. *)
Theorem unsearchable_file d f v w :
  d ∈ DOMAINS → endswith (py ".json") f = true →
  file_at w d f = Some (Json v) → searchable v = false →
  (∀ query, ∃ e, search_blocks E query None w = (Raise e, w)) ∧
  (∀ query, ∃ e, search_blocks E query (Some d) w = (Raise e, w)) ∧
  (∃ results, get_blocks_by_domain E d w = (Ret results, w) ∧ v ∈ results) ∧
  (∃ blocks, export_blocks E (py "json") w = (Ret (json_dumps E blocks), w) ∧
     v ∈ blocks) ∧
  ((∀ b, v ≠ VDict b) →
   export_blocks E (py "markdown") w = (Raise AttributeError, w)).
Proof.
  intros Hd He Hf Hv.
  assert (∀ ds, d ∈ ds → (d, f, v) ∈ readable_files (fs w) ds) as Hin.
  { intros ds Hds. by apply elem_of_readable_files. }
  split; [|split; [|split; [|split]]].
  - intros query. unfold search_blocks.
    destruct (search_domains_Raise (fs w) (split (lower query)) DOMAINS [] d f v)
      as [e ->]; try done. by exists e.
  - intros query. unfold search_blocks.
    pose proof (DOMAINS_nonempty d Hd) as Hne.
    destruct d as [|c d]; [done|].
    destruct (search_domains_Raise (fs w) (split (lower query)) [c :: d] [] (c :: d) f v)
      as [e ->]; try done; [by left|]. by exists e.
  - unfold file_at in Hf. destruct (fs w !! d) as [dir|] eqn:Hdir; [|discriminate].
    simpl in Hf. exists (load_files (map_to_list dir)). split.
    + unfold get_blocks_by_domain. by rewrite Hdir.
    + rewrite (load_files_keep d).
      apply list_elem_of_fmap. exists (d, f, v). split; [reflexivity|].
      apply list_elem_of_omap. exists (f, Json v).
      split; [by apply elem_of_map_to_list|]. unfold keep. simpl. by rewrite He.
  - exists (load_domains (fs w) DOMAINS). split.
    + unfold export_blocks.
      replace (str_eqb (py "json") (py "json")) with true by (vm_compute; reflexivity).
      reflexivity.
    + rewrite load_domains_readable. apply list_elem_of_fmap.
      exists (d, f, v). split; [reflexivity | by apply Hin].
  - intros Hnd. unfold export_blocks.
    replace (str_eqb (py "markdown") (py "json")) with false by (vm_compute; reflexivity).
    replace (str_eqb (py "markdown") (py "markdown")) with true
      by (vm_compute; reflexivity).
    rewrite (markdown_loop_Raise _ _ v); [reflexivity| |exact Hnd].
    rewrite load_domains_readable. apply list_elem_of_fmap.
    exists (d, f, v). split; [reflexivity | by apply Hin].
Qed.

End Queries.

(** ** Versions that cannot be read *)

Section BadVersions.

Context (E : env).




End BadVersions.

(** ** The converter *)

Import Re Converter.

Section Matching.

Lemma Ret_inj {A} (a b : A) : Ret a = Ret b → a = b.
Proof. by intros [= ->]. Qed.

Lemma eat_app s b r : eat s b (s ++ r) = Some (reverse s ++ b, r).
Proof.
  revert b; induction s as [|a s IH]; intros b; simpl; [done|].
  rewrite N.eqb_refl, IH. by rewrite reverse_cons, <- app_assoc.
Qed.

Lemma eat_startswith s b t : startswith s t = false → eat s b t = None.
Proof.
  revert b t; induction s as [|a s IH]; intros b [|c t]; simpl; try done.
  destruct (a =? c) eqn:Hac; simpl; [|done].
  apply N.eqb_eq in Hac as ->. apply IH.
Qed.

Lemma between_app b l : between b (reverse l ++ b) = l.
Proof.
  unfold between. rewrite length_app, length_reverse.
  replace (length l + length b - length b)%nat with (length (reverse l))
    by (rewrite length_reverse; lia).
  by rewrite take_app_length, reverse_involutive.
Qed.

(** A greedy class that can take all of [xs] and must stop there does so,
    when what follows matches. *)
Lemma many_greedy_all {R} p min g (k : cursor → option R) n b xs rest r :
  Forall (λ c, p c = true) xs →
  match rest with [] => True | c :: _ => p c = false end →
  (min ≤ n + length xs)%nat →
  k (Cursor (reverse xs ++ b) rest g) = Some r →
  many true min p g k n b (xs ++ rest) = Some r.
Proof.
  revert n b. induction xs as [|x xs IH]; intros n b Hxs Hrest Hmin Hk.
  - simpl in *. rewrite Nat.add_0_r in Hmin.
    apply Nat.leb_le in Hmin.
    destruct rest as [|c rest]; simpl; rewrite Hmin; [done|].
    by rewrite Hrest.
  - apply Forall_cons in Hxs as [Hx Hxs]. simpl. rewrite Hx.
    rewrite (IH (S n) (x :: b)); [done | done | done | simpl in *; lia |].
    by rewrite reverse_cons, <- app_assoc in Hk.
Qed.

Lemma run_line {R} kv b rest g (k : cursor → option R) r :
  plain kv →
  k (Cursor (reverse (meta_line kv) ++ b) rest g) = Some r →
  run META_LINE (Cursor b (meta_line kv ++ rest) g) k = Some r.
Proof.
  destruct kv as [key value]. intros (Hk & Hstar & _ & Hv & Hnl) Hr.
  unfold META_LINE, cat, meta_line in *. cbn [foldr run before Re.rest group1].
  rewrite <- !app_assoc, eat_app.
  erewrite many_greedy_all; [done | | done | | ].
  - apply Forall_forall. intros c Hc. unfold not_star.
    apply negb_true_iff, N.eqb_neq. by intros ->.
  - destruct key; [done | simpl; lia].
  - cbn [run before Re.rest group1]. rewrite eat_app.
    erewrite many_greedy_all; [done | | done | | ].
    + apply Forall_forall. intros c Hc. unfold dot.
      apply negb_true_iff, N.eqb_neq. by intros ->.
    + destruct value; [done | simpl; lia].
    + cbn [run before Re.rest group1]. rewrite eat_app.
      cbn [eat]. rewrite <- Hr. f_equal. f_equal.
      rewrite !reverse_app, <- !app_assoc. done.
Qed.

Lemma last_cons_default {A} (x : A) l d d' :
  List.last (x :: l) d = List.last l x ∧ List.last (x :: l) d = List.last (x :: l) d'.
Proof.
  revert x d d'. induction l as [|y l IH]; intros x d d'; [done|].
  destruct (IH y d d') as [H1 H2]. destruct (IH y x d) as [H3 H4].
  split.
  - change (List.last (x :: y :: l) d) with (List.last (y :: l) d).
    change (List.last (y :: l) x) with (List.last (y :: l) x). congruence.
  - change (List.last (x :: y :: l) d) with (List.last (y :: l) d).
    change (List.last (x :: y :: l) d') with (List.last (y :: l) d'). done.
Qed.

(** The loop over well-formed metadata lines takes them all when the text
    that follows does not open another one. *)
Lemma plus_loop_lines {R} kv kvs b post g (k : cursor → option R) r fuel :
  Forall plain (kv :: kvs) →
  startswith (py "- **") post = false →
  (length kvs ≤ fuel)%nat →
  k (Cursor (reverse (concat (meta_line <$> kv :: kvs)) ++ b) post
       (Some (meta_line (List.last kvs kv)))) = Some r →
  plus_loop (run (Group META_LINE)) k fuel
    (Cursor b (concat (meta_line <$> kv :: kvs) ++ post) g) = Some r.
Proof.
  revert kv b g fuel. induction kvs as [|kv' kvs IH]; intros kv b g fuel Hall Hpost Hfuel Hk.
  - apply Forall_cons in Hall as [Hkv _].
    rewrite fmap_cons, fmap_nil in *. cbn [concat] in *. rewrite app_nil_r in *.
    destruct fuel as [|fuel]; cbn [plus_loop run before Re.rest group1].
    + apply run_line; [done|]. cbn [before]. rewrite between_app. exact Hk.
    + apply run_line; [done|]. cbn [before]. rewrite between_app.
      replace (plus_loop _ _ _ _) with (@None R); [exact Hk|].
      symmetry. destruct fuel; cbn [plus_loop run before Re.rest group1];
        unfold META_LINE, cat; cbn [foldr run before Re.rest group1];
        by rewrite eat_startswith.
  - apply Forall_cons in Hall as [Hkv Hall].
    destruct fuel as [|fuel]; [simpl in Hfuel; lia|].
    rewrite fmap_cons in *. cbn [concat] in *.
    rewrite <- app_assoc. cbn [plus_loop run before Re.rest group1].
    apply run_line; [done|]. cbn [before]. rewrite between_app.
    rewrite (IH kv' _ _ fuel); [done | done | done | simpl in Hfuel; lia |].
    rewrite <- Hk. f_equal. f_equal; [by rewrite reverse_app, <- app_assoc|].
    apply (f_equal Some), (f_equal meta_line). symmetry.
    apply (proj1 (last_cons_default kv' kvs kv kv)).
Qed.

Lemma length_meta_line kv : (1 ≤ length (meta_line kv))%nat.
Proof. destruct kv. unfold meta_line. simpl. lia. Qed.

Lemma length_meta_lines kvs :
  (length kvs ≤ length (concat (meta_line <$> kvs)))%nat.
Proof.
  induction kvs as [|kv kvs IH]; [simpl; lia|].
  rewrite fmap_cons. cbn [concat length]. rewrite length_app.
  pose proof (length_meta_line kv). lia.
Qed.

(** The metadata pattern matches a well-formed block, all of it. *)
Lemma match_at_block kv kvs seen post :
  Forall plain (kv :: kvs) →
  startswith (py "- **") post = false →
  match_at META seen (meta_block (kv :: kvs) ++ post)
  = Some (Cursor (reverse (meta_block (kv :: kvs)) ++ seen) post
            (Some (meta_line (List.last kvs kv)))).
Proof.
  intros Hall Hpost. unfold match_at, META, cat, meta_block.
  cbn [foldr run before Re.rest group1].
  rewrite <- !app_assoc, (app_assoc HEADING nl), eat_app.
  cbn [run before Re.rest group1].
  apply plus_loop_lines; [done | done | |].
  - rewrite length_app. pose proof (length_meta_lines (kv :: kvs)).
    simpl in *. lia.
  - cbn [run before Re.rest group1 eat]. f_equal. f_equal.
    by rewrite !reverse_app, <- !app_assoc.
Qed.

(** It matches nowhere but at its heading. *)
Lemma match_at_no_heading seen text :
  startswith (HEADING ++ nl) text = false → match_at META seen text = None.
Proof.
  intros Hs. unfold match_at, META, cat. cbn [foldr run before Re.rest group1].
  by rewrite eat_startswith.
Qed.

End Matching.

Section Substitution.

Lemma sub_go_skip r repl xs seen text :
  sub_go r repl (length xs) seen (xs ++ text) = sub_go r repl 0 (reverse xs ++ seen) text.
Proof.
  revert seen. induction xs as [|x xs IH]; intros seen; [done|].
  cbn [length app sub_go]. rewrite IH. by rewrite reverse_cons, <- app_assoc.
Qed.


Lemma sub_go_miss r repl c seen text :
  match_at r seen (c :: text) = None →
  sub_go r repl 0 seen (c :: text) = c :: sub_go r repl 0 (c :: seen) text.
Proof. intros Hm. cbn [sub_go]. by rewrite Hm. Qed.

Lemma startswith_cons_ne t c text d :
  t !! 0%nat = Some d → c ≠ d → startswith t (c :: text) = false.
Proof.
  destruct t as [|a t]; [done|]. intros [= ->] Hne. simpl.
  apply andb_false_iff. left. apply N.eqb_neq. done.
Qed.




End Substitution.

Section Searching.

Lemma search_go_miss r c seen text :
  match_at r seen (c :: text) = None →
  search_go r seen (c :: text) = search_go r (c :: seen) text.
Proof. intros Hm. cbn [search_go]. by rewrite Hm. Qed.

Lemma search_go_hit r seen text e :
  match_at r seen text = Some e → search_go r seen text = Some (Found seen e).
Proof. intros Hm. destruct text; cbn [search_go]; by rewrite Hm. Qed.

Lemma search_go_meta_plain pre seen text :
  35 ∉ pre →
  search_go META seen (pre ++ text) = search_go META (reverse pre ++ seen) text.
Proof.
  revert seen. induction pre as [|c pre IH]; intros seen Hpre; [done|].
  apply not_elem_of_cons in Hpre as [Hc Hpre].
  cbn [app]. rewrite search_go_miss.
  - rewrite IH by done. by rewrite reverse_cons, <- app_assoc.
  - apply match_at_no_heading. by apply (startswith_cons_ne _ _ _ 35).
Qed.

End Searching.

Section Metadata.

Lemma meta_line_text kv : meta_line kv = line_text kv ++ nl.
Proof. destruct kv. unfold meta_line, line_text. by rewrite <- !app_assoc. Qed.

Lemma line_text_no_nl kv : plain kv → 10 ∉ line_text kv.
Proof.
  destruct kv as [key value]. intros (_ & _ & Hk & _ & Hv). unfold line_text.
  rewrite !elem_of_app. intros [H|[H|[H|H]]]; try done.
  - vm_compute in H. repeat (apply elem_of_cons in H as [H|H]; [done|]).
    by apply elem_of_nil in H.
  - vm_compute in H. repeat (apply elem_of_cons in H as [H|H]; [done|]).
    by apply elem_of_nil in H.
Qed.

Lemma split_on_lines kvs :
  Forall plain kvs →
  split_on_go 10 [] (concat (meta_line <$> kvs)) = (line_text <$> kvs) ++ [[]].
Proof.
  induction 1 as [|kv kvs Hkv _ IH]; [done|].
  rewrite !fmap_cons. cbn [concat]. rewrite meta_line_text, <- app_assoc.
  change (nl ++ ?x) with (10 :: x).
  rewrite split_on_go_sep by (by apply line_text_no_nl).
  by rewrite IH.
Qed.

Lemma split_on_block kvs :
  Forall plain kvs →
  split_on 10 (meta_block kvs) = HEADING :: (line_text <$> kvs) ++ [[]].
Proof.
  intros Hall. unfold split_on, meta_block.
  change (nl ++ ?x) with (10 :: x).
  rewrite split_on_go_sep by (apply (bool_decide_unpack _); vm_compute; exact I).
  by rewrite split_on_lines.
Qed.




End Metadata.

Section Quote.

Context (E : Converter.env).

Lemma title_found rest :
  search TITLE (QUOTE_TITLE ++ nl ++ rest)
  = Some (Found [] (Cursor (reverse QUOTE_TITLE) (nl ++ rest)
                      (Some (py "报价-价值定价策略")))).
Proof. vm_compute. reflexivity. Qed.


Lemma quote_parts :
  split_on 45 (py "报价-价值定价策略") = [py "报价"; py "价值定价策略"].
Proof. vm_compute. reflexivity. Qed.

Lemma quote_no_hash : 35 ∉ drop 1 (QUOTE_TITLE ++ nl ++ nl).
Proof. apply (bool_decide_unpack _). vm_compute. exact I. Qed.

Lemma quote_head text :
  QUOTE_TITLE ++ nl ++ nl ++ text = 35 :: drop 1 (QUOTE_TITLE ++ nl ++ nl) ++ text.
Proof. reflexivity. Qed.



Lemma search_meta_quote pre kv kvs post :
  35 ∉ pre → Forall plain (kv :: kvs) → startswith (py "- **") post = false →
  ∃ m, search META (QUOTE_TITLE ++ nl ++ nl ++ pre ++ meta_block (kv :: kvs) ++ post)
       = Some m ∧ group0 m = meta_block (kv :: kvs).
Proof.
  intros Hpre Hall Hpost. unfold search. rewrite quote_head.
  rewrite search_go_miss by (by apply match_at_no_heading).
  rewrite search_go_meta_plain by apply quote_no_hash.
  rewrite search_go_meta_plain by done.
  erewrite search_go_hit by (by apply match_at_block).
  eexists. split; [done|]. unfold group0. cbn [start stop before].
  apply between_app.
Qed.






End Quote.

(** ** Further properties of the identifiers and of the converter *)

(** ** Identifiers *)

Section Identifiers.

Lemma span_by (p : N → bool) (s : pystr) :
  ∃ xs rest, s = xs ++ rest ∧ Forall (λ c, p c = true) xs ∧
    match rest with [] => True | c :: _ => p c = false end.
Proof.
  induction s as [|c s (xs & rest & -> & Hxs & Hrest)].
  - by exists [], [].
  - destruct (p c) eqn:Hc.
    + exists (c :: xs), rest. repeat split; [by constructor | done].
    + by exists [], (c :: xs ++ rest).
Qed.

Lemma collapse_true_run xs rest :
  Forall (λ c, negb (is_slug_char c) = true) xs →
  match rest with [] => True | c :: _ => negb (is_slug_char c) = false end →
  collapse true (xs ++ rest) = collapse false rest.
Proof.
  intros Hxs Hrest. induction Hxs as [|x xs Hx _ IH]; simpl.
  - destruct rest as [|c rest]; [reflexivity|]. simpl.
    apply negb_false_iff in Hrest. by rewrite Hrest.
  - apply negb_true_iff in Hx. by rewrite Hx.
Qed.

Lemma match_at_slug_char seen c text :
  is_slug_char c = true → match_at non_slug_run seen (c :: text) = None.
Proof. intros Hc. unfold match_at, non_slug_run. simpl. by rewrite Hc. Qed.

Lemma match_at_non_slug_run seen x xs rest :
  Forall (λ c, negb (is_slug_char c) = true) (x :: xs) →
  match rest with [] => True | c :: _ => negb (is_slug_char c) = false end →
  match_at non_slug_run seen (x :: xs ++ rest)
  = Some (Cursor (reverse (x :: xs) ++ seen) rest None).
Proof.
  intros Hxs Hrest. unfold match_at, non_slug_run. cbn [run Re.before Re.rest Re.group1].
  apply (many_greedy_all _ 1 None Some 0 seen (x :: xs) rest); try done.
  simpl. lia.
Qed.

Lemma sub_go_collapse n : ∀ text seen,
  (length text ≤ n)%nat →
  sub_go non_slug_run (py "-") 0 seen text = collapse false text.
Proof.
  induction n as [|n IH]; intros text seen Hlen.
  - destruct text; [reflexivity | simpl in Hlen; lia].
  - destruct text as [|c text]; [reflexivity|].
    simpl in Hlen. destruct (is_slug_char c) eqn:Hc.
    + rewrite sub_go_miss by (by apply match_at_slug_char).
      cbn [collapse]. rewrite Hc. f_equal. apply IH. lia.
    + destruct (span_by (λ c, negb (is_slug_char c)) text)
        as (xs & rest & -> & Hxs & Hrest).
      assert (Forall (λ c, negb (is_slug_char c) = true) (c :: xs)) as Hcxs.
      { constructor; [by rewrite Hc | done]. }
      cbn [sub_go]. rewrite (match_at_non_slug_run seen c xs rest Hcxs Hrest).
      cbn [before].
      replace (length (reverse (c :: xs) ++ seen) - length seen)%nat
        with (S (length xs))
        by (rewrite length_app, length_reverse; simpl; lia).
      rewrite sub_go_skip. cbn [collapse]. rewrite Hc.
      rewrite (collapse_true_run xs rest Hxs Hrest).
      rewrite IH; [reflexivity|]. rewrite length_app in Hlen. lia.
Qed.

Lemma sub_collapse s : sub non_slug_run (py "-") s = collapse false s.
Proof. apply (sub_go_collapse (length s)). lia. Qed.

Lemma length_collapse r s : (length (collapse r s) ≤ length s)%nat.
Proof.
  revert r. induction s as [|c s IH]; intros r; simpl; [lia|].
  destruct (is_slug_char c); simpl; [specialize (IH false); lia|].
  destruct r; simpl; specialize (IH true); lia.
Qed.

Lemma collapse_chars r s :
  Forall (λ c, is_slug_char c = true ∨ c = 45) (collapse r s).
Proof.
  revert r. induction s as [|c s IH]; intros r; simpl; [constructor|].
  destruct (is_slug_char c) eqn:Hc; [constructor; auto|].
  destruct r; [apply IH | constructor; auto].
Qed.

Lemma startswith_dash l :
  startswith (py "-") l = false ↔ match l with [] => True | c :: _ => c ≠ 45 end.
Proof.
  change (py "-") with [45]. destruct l as [|c l]; cbn [startswith]; [done|].
  rewrite andb_true_r, N.eqb_neq. split; congruence.
Qed.

Lemma slug_char_not_dash c : is_slug_char c = true → c ≠ 45.
Proof. intros Hc ->. discriminate Hc. Qed.

Lemma collapse_true_head s :
  startswith (py "-") (collapse true s) = false.
Proof.
  apply startswith_dash. induction s as [|c s IH]; cbn [collapse]; [done|].
  destruct (is_slug_char c) eqn:Hc; [by apply slug_char_not_dash | exact IH].
Qed.

Lemma contains_cons t c s :
  contains t (c :: s) = startswith t (c :: s) || contains t s.
Proof. reflexivity. Qed.

Lemma collapse_no_double_dash r s : contains (py "--") (collapse r s) = false.
Proof.
  revert r. induction s as [|c s IH]; intros r; [reflexivity|].
  cbn [collapse]. destruct (is_slug_char c) eqn:Hc.
  - rewrite contains_cons, IH, orb_false_r.
    change (py "--") with [45; 45]. cbn [startswith].
    apply andb_false_iff. left. apply N.eqb_neq.
    intros <-. discriminate Hc.
  - destruct r; [apply IH|].
    rewrite contains_cons, IH, orb_false_r.
    change (py "--") with [45; 45]. cbn [startswith].
    rewrite N.eqb_refl. cbn [andb].
    exact (collapse_true_head s).
Qed.

Lemma lstrip_by_suffix p s :
  ∃ a, s = a ++ lstrip_by p s ∧ Forall (λ c, p c = true) a.
Proof.
  induction s as [|c s (a & Hs & Ha)]; [by exists []|].
  simpl. destruct (p c) eqn:Hc.
  - exists (c :: a). split; [by rewrite Hs at 1 | by constructor].
  - by exists [].
Qed.

Lemma lstrip_by_head p s :
  match lstrip_by p s with [] => True | c :: _ => p c = false end.
Proof.
  induction s as [|c s IH]; [done|]. simpl.
  destruct (p c) eqn:Hc; [exact IH | exact Hc].
Qed.

Lemma rstrip_by_prefix p s :
  ∃ b, s = rstrip_by p s ++ b ∧ Forall (λ c, p c = true) b.
Proof.
  unfold rstrip_by. destruct (lstrip_by_suffix p (reverse s)) as (a & Hs & Ha).
  exists (reverse a). split; [|by apply Forall_reverse].
  rewrite <- reverse_app, <- Hs. by rewrite reverse_involutive.
Qed.

Lemma strip_by_infix p s : ∃ a b, s = a ++ strip_by p s ++ b.
Proof.
  unfold strip_by. destruct (lstrip_by_suffix p s) as (a & Hs & _).
  destruct (rstrip_by_prefix p (lstrip_by p s)) as (b & Hb & _).
  exists a, b. by rewrite <- Hb.
Qed.

Lemma contains_infix t a s b : contains t s = true → contains t (a ++ s ++ b) = true.
Proof.
  rewrite !contains_iff. intros (x & y & ->). exists (a ++ x), (y ++ b).
  by rewrite <- !app_assoc.
Qed.

Lemma strip_by_head p s :
  match strip_by p s with [] => True | c :: _ => p c = false end.
Proof.
  unfold strip_by. pose proof (lstrip_by_head p s) as Hh.
  destruct (rstrip_by_prefix p (lstrip_by p s)) as (b & Hb & _).
  destruct (rstrip_by p (lstrip_by p s)) as [|c x]; [done|].
  rewrite Hb in Hh. exact Hh.
Qed.

Lemma strip_by_last p s :
  match reverse (strip_by p s) with [] => True | c :: _ => p c = false end.
Proof.
  unfold strip_by, rstrip_by. rewrite reverse_involutive. apply lstrip_by_head.
Qed.

(** The shape of [take n (strip('-'))] of the substitution. *)
Lemma slug_like n s :
  let x := take n (strip_by (N.eqb 45) (sub non_slug_run (py "-") s)) in
  x = take n (strip_by (N.eqb 45) (collapse false s)) ∧
  (length x ≤ n)%nat ∧
  Forall (λ c, is_slug_char c = true ∨ c = 45) x ∧
  startswith (py "-") x = false ∧
  contains (py "--") x = false ∧
  ((length s ≤ n)%nat → endswith (py "-") x = false).
Proof.
  intros x. unfold x. rewrite sub_collapse.
  set (y := strip_by (N.eqb 45) (collapse false s)).
  destruct (strip_by_infix (N.eqb 45) (collapse false s)) as (a & b & Hy). fold y in Hy.
  split; [reflexivity|]. split; [rewrite length_take; lia|].
  split.
  { apply Forall_take. pose proof (collapse_chars false s) as H.
    rewrite Hy in H. apply Forall_app in H as [_ H]. by apply Forall_app in H as [H _]. }
  split.
  { pose proof (strip_by_head (N.eqb 45) (collapse false s)) as Hh. fold y in Hh.
    apply startswith_dash.
    destruct n as [|n]; [done|]. destruct y as [|c y]; [done|].
    cbn [take]. apply N.eqb_neq. by rewrite N.eqb_sym. }
  split.
  { destruct (contains (py "--") (take n y)) eqn:Hc; [|reflexivity].
    pose proof (collapse_no_double_dash false s) as Hno.
    rewrite Hy in Hno. rewrite <- Hno. symmetry.
    apply contains_infix. rewrite <- (take_drop n y).
    apply (contains_infix _ [] (take n y) (drop n y)). exact Hc. }
  intros Hlen.
  assert (length y ≤ n)%nat as Hyn.
  { pose proof (length_collapse false s) as H1.
    rewrite Hy, !length_app in H1. lia. }
  rewrite take_ge by exact Hyn.
  pose proof (strip_by_last (N.eqb 45) (collapse false s)) as Hl. fold y in Hl.
  unfold endswith. change (reverse (py "-")) with (py "-").
  apply startswith_dash.
  destruct (reverse y) as [|c z]; [done|].
  apply N.eqb_neq. by rewrite N.eqb_sym.
Qed.


Lemma collapse_all_other r s :
  Forall (λ c, is_slug_char c = false) s →
  collapse r s = if r then [] else match s with [] => [] | _ => py "-" end.
Proof.
  intros Hs. revert r. induction Hs as [|c s Hc _ IH]; intros r; [by destruct r|].
  cbn [collapse]. rewrite Hc. destruct r; [apply (IH true)|].
  by rewrite (IH true).
Qed.

Lemma slug_like_empty n s :
  Forall (λ c, is_slug_char c = false) s →
  take n (strip_by (N.eqb 45) (sub non_slug_run (py "-") s)) = [].
Proof.
  intros Hs. rewrite sub_collapse, (collapse_all_other false s Hs).
  destruct s; by destruct n.
Qed.


(** X21: the identifier the converter makes: the slug of the title, cut to
    20 characters, an underscore and the first eight characters of the
    UUID.  For a title of CJK ideographs and ASCII characters other than
    letters and digits, as the titles of the toolkit files are, the slug is
    empty and the identifier is the underscore and the eight characters. *)
Theorem converter_id_shape (E : Converter.env) (title : pystr) :
  let title_slug :=
    take 20 (strip_by (N.eqb 45) (collapse false (lower title))) in
  Converter.generate_id E title
    = title_slug ++ py "_" ++ take 8 (Converter.uuid4 E) ∧
  Forall (λ c, is_slug_char c = true ∨ c = 45) title_slug ∧
  startswith (py "-") title_slug = false ∧
  contains (py "--") title_slug = false ∧
  (Forall (λ c, Converter.caseless c = true ∧ is_slug_char (lower_char c) = false)
          title →
   Converter.generate_id E title = py "_" ++ take 8 (Converter.uuid4 E)).
Proof.
  intros title_slug.
  destruct (slug_like 20 (lower title)) as (H1 & H2 & H3 & H4 & H5 & H6).
  unfold Converter.generate_id. fold title_slug in H1. rewrite H1.
  rewrite H1 in H3, H4, H5. fold title_slug in H3, H4, H5.
  repeat split; try assumption.
  intros Hall. rewrite <- H1. rewrite slug_like_empty; [reflexivity|].
  unfold lower. apply Forall_map. eapply Forall_impl; [exact Hall|].
  by intros c [_ Hc].
Qed.

End Identifiers.

(** ** The converter on any document *)

Section Records.

Import Converter.

Context (E : Converter.env).

Lemma read_meta_Raise lines meta_info e :
  read_meta lines meta_info = Raise e → e = ValueErrorPy.
Proof.
  revert meta_info. induction lines as [|line lines IH]; intros meta_info;
    cbn [read_meta]; [discriminate|].
  destruct (contains (py "- **") line); [|apply IH].
  destruct (split_once (py ": ") [] line) as [[key value]|]; [apply IH|].
  by intros [= <-].
Qed.

Lemma split_on_second sep s part :
  split_on sep s !! 1%nat = Some part → sep ∈ s.
Proof.
  destruct (decide (sep ∈ s)) as [Hin|Hnot]; [done|].
  unfold split_on. rewrite split_on_go_none by done. discriminate.
Qed.

Lemma match_at_title_no_hash seen text :
  match text with [] => True | c :: _ => c ≠ 35 end →
  match_at TITLE seen text = None.
Proof.
  intros Hhead. unfold match_at, TITLE, cat. cbn [foldr run before].
  assert (run (Lit (py "#")) (Cursor seen text None)
            (λ c', run (foldr Seq (Lit [])
               [Many true 0 is_space; Group (Many false 1 dot); Many true 0 is_space;
                Lit (py "v"); Many true 1 is_digit; Lit (py ".");
                Many true 1 is_digit]) c' Some) = None) as Hlit.
  { cbn [run Re.before Re.rest]. change (py "#") with [35].
    destruct text as [|c text]; [reflexivity|]. cbn [eat].
    destruct (35 =? c) eqn:Hc; [|reflexivity].
    apply N.eqb_eq in Hc. congruence. }
  cbn [foldr] in Hlit.
  destruct seen as [|x seen]; [exact Hlit|].
  destruct (true && (x =? 10)); [exact Hlit | reflexivity].
Qed.

Lemma search_title_no_hash seen text : 35 ∉ text → search_go TITLE seen text = None.
Proof.
  revert seen. induction text as [|c text IH]; intros seen Hno; cbn [search_go].
  - by rewrite match_at_title_no_hash.
  - apply not_elem_of_cons in Hno as [Hc Hno].
    rewrite match_at_title_no_hash by (by apply not_eq_sym).
    by apply IH.
Qed.

(** X22: a document whose title has no dash is never converted.  The title
    falls back to "Untitled" when no line has the form of a title, as in a
    document without any [#]; splitting a title without [-] yields one
    part, and [parse_toolkit] raises [IndexError] on the second, unless the
    metadata lines made it raise [ValueError] before. *)
Theorem title_without_dash content :
  (35 ∉ content → search TITLE content = None) ∧
  ((search TITLE content = None ∨
    ∃ m t, search TITLE content = Some m ∧ group1 (stop m) = Some t ∧ 45 ∉ t) →
   ∃ e, parse_toolkit E content = Raise e ∧ (e = IndexError ∨ e = ValueErrorPy)).
Proof.
  split; [apply search_title_no_hash|].
  intros Htitle. unfold parse_toolkit.
  set (title := match search TITLE content with
                | Some m => default [] (group1 (stop m))
                | None => py "Untitled"
                end).
  assert (45 ∉ title) as Hno.
  { unfold title. destruct Htitle as [->|(m & t & -> & -> & Ht)]; [|exact Ht].
    apply (bool_decide_unpack _). vm_compute. reflexivity. }
  destruct (match search META content with
            | Some m => read_meta (split_on 10 (group0 m)) ∅
            | None => Ret ∅
            end) as [meta_info|e] eqn:Hmeta.
  - cbn [mbind outcome_bind].
    assert (split_on 45 title = [title]) as ->
      by (unfold split_on; by rewrite split_on_go_none).
    change ([title] !! 1%nat) with (@None pystr).
    exists IndexError. auto.
  - exists e. split; [reflexivity|]. right.
    destruct (search META content); [by eapply read_meta_Raise | discriminate].
Qed.

Lemma map_get_in m key dflt : map_get m key dflt ∈ dflt :: m.*2.
Proof.
  induction m as [|[k v] m IH]; cbn [map_get]; [by left|].
  rewrite fmap_cons. destruct (str_eqb k key).
  - right. by left.
  - apply elem_of_cons in IH as [->|IH]; [by left | by do 2 right].
Qed.

Lemma domain_map_in_DOMAINS key :
  map_get domain_map key (py "defense") ∈ Manager.DOMAINS.
Proof.
  assert (Forall (λ d, d ∈ Manager.DOMAINS) (py "defense" :: domain_map.*2)) as H.
  { repeat constructor; apply (bool_decide_unpack _); vm_compute; reflexivity. }
  rewrite Forall_forall in H. apply H, map_get_in.
Qed.

Lemma type_map_in_types key :
  map_get type_map key (py "module") ∈ [py "module"; py "guide"; py "tool"].
Proof.
  assert (Forall (λ t, t ∈ [py "module"; py "guide"; py "tool"])
            (py "module" :: type_map.*2)) as H.
  { repeat constructor; apply (bool_decide_unpack _); vm_compute; reflexivity. }
  rewrite Forall_forall in H. apply H, map_get_in.
Qed.

(** X23: the record [parse_toolkit] emits, whatever the document: its
    [domain] is one of the five the manager scans and its [type] is
    "module", "guide" or "tool"; the title holds a dash, and the labels on
    its two sides, stripped, are the tags and, for the second, the
    subdomain; the identifier is made from the title; version, counters and
    sequences are those of a fresh block; and the record has these 18
    fields and no other. *)
Theorem emitted_record content b :
  parse_toolkit E content = Ret b →
  ∃ title domain_key type_key domain type_,
    b !! "title" = Some (VStr title) ∧ 45 ∈ title ∧
    Some domain_key = strip <$> split_on 45 title !! 0%nat ∧
    Some type_key = strip <$> split_on 45 title !! 1%nat ∧
    b !! "id" = Some (VStr (generate_id E title)) ∧
    b !! "domain" = Some (VStr domain) ∧
    domain = map_get domain_map domain_key (py "defense") ∧
    domain ∈ Manager.DOMAINS ∧
    b !! "type" = Some (VStr type_) ∧
    type_ = map_get type_map type_key (py "module") ∧
    type_ ∈ [py "module"; py "guide"; py "tool"] ∧
    b !! "subdomain" = Some (VStr type_key) ∧
    b !! "tags" = Some (VList [VStr domain_key; VStr type_key]) ∧
    b !! "version" = Some (VStr (py "1.0")) ∧
    b !! "usage_count" = Some (VInt 0) ∧
    b !! "rating" = Some (VFloat 0) ∧
    b !! "feedback" = Some (VList []) ∧
    b !! "variations" = Some (VList []) ∧
    b !! "examples" = Some (VList []) ∧
    b !! "related_blocks" = Some (VList []) ∧
    b !! "skill_tree" = Some (VDict ∅) ∧
    b !! "created_at" = Some (VStr (created E)) ∧
    b !! "updated_at" = Some (VStr (updated E)) ∧
    (∃ core context, b !! "content" = Some (VStr core) ∧
       b !! "context" = Some (VStr context)) ∧
    size b = 18%nat.
Proof.
  unfold parse_toolkit.
  set (title := match search TITLE content with
                | Some m => default [] (group1 (stop m))
                | None => py "Untitled"
                end).
  intros (meta_info & _ & Hb)%obind_Ret. revert Hb.
  destruct (split_on 45 title !! 1%nat) as [part|] eqn:Hpart; [|discriminate].
  destruct (split_on 45 title !! 0%nat) as [first|] eqn:Hfirst.
  2: { unfold split_on in *. destruct (split_on_go 45 [] title); discriminate. }
  cbn [default]. unfold id.
  pose proof (domain_map_in_DOMAINS (strip first)) as Hdom.
  pose proof (type_map_in_types (strip part)) as Hty.
  pose proof (split_on_second _ _ _ Hpart) as Hdash.
  set (core := sub TITLE_LINE [] _). set (i := generate_id E title).
  match goal with |- context [("context", VStr ?x)] => set (context := x) end.
  set (domain := map_get domain_map _ _) in *.
  set (type_ := map_get type_map _ _) in *.
  set (domain_key := strip first). set (type_key := strip part).
  set (c := created E). set (u := updated E).
  intros <-%Ret_inj.
  exists title, domain_key, type_key, domain, type_.
  assert (Some domain_key = strip <$> split_on 45 title !! 0%nat) as H0
    by exact (eq_sym (f_equal (fmap strip) Hfirst)).
  assert (Some type_key = strip <$> split_on 45 title !! 1%nat) as H1
    by exact (eq_sym (f_equal (fmap strip) Hpart)).
  assert (domain = map_get domain_map domain_key (py "defense")) as H2 by reflexivity.
  assert (type_ = map_get type_map type_key (py "module")) as H3 by reflexivity.
  change (generate_id E title) with i.
  change (created E) with c. change (updated E) with u.
  clearbody core i context domain type_ domain_key type_key c u title.
  repeat (split; [first [assumption | vm_compute; reflexivity]|]).
  split; [exists core, context; split; vm_compute; reflexivity|].
  vm_compute. reflexivity.
Qed.

End Records.

(** ** The batch *)

Section Batch.

Import Converter.

Lemma parse_toolkit_place E content b :
  parse_toolkit E content = Ret b →
  ∃ d i, b !! "domain" = Some (VStr d) ∧ b !! "id" = Some (VStr i) ∧
    d ∈ Manager.DOMAINS.
Proof.
  unfold parse_toolkit.
  set (title := match search TITLE content with
                | Some m => default [] (group1 (stop m))
                | None => py "Untitled"
                end).
  intros (meta_info & _ & Hb)%obind_Ret. revert Hb.
  destruct (split_on 45 title !! 1%nat) as [part|]; [|discriminate].
  match goal with |- context [("domain", VStr ?x)] =>
    pose proof (domain_map_in_DOMAINS
                  (strip (default [] (split_on 45 title !! 0%nat)))) as Hdom;
    set (domain := x) in *
  end.
  match goal with |- context [("id", VStr ?x)] => set (i := x) end.
  match goal with |- context [("content", VStr ?x)] => set (core := x) end.
  match goal with |- context [("context", VStr ?x)] => set (context := x) end.
  match goal with |- context [("type", VStr ?x)] => set (type_ := x) end.
  match goal with |- context [("subdomain", VStr ?x)] => set (type_key := x) end.
  match goal with |- context [("tags", VList [VStr ?x; _])] => set (domain_key := x) end.
  intros <-%Ret_inj. exists domain, i.
  clearbody domain i core context type_ type_key domain_key title.
  split; [vm_compute; reflexivity|]. split; [vm_compute; reflexivity|]. exact Hdom.
Qed.

Lemma mkdir_file d t n d' f :
  file_at (World (mkdir d t) n) d' f = file_at (World t n) d' f.
Proof.
  unfold file_at, mkdir. simpl. destruct (t !! d) eqn:Hd; [reflexivity|].
  destruct (decide (d' = d)) as [->|Hne].
  - by rewrite lookup_insert_eq, Hd.
  - by rewrite lookup_insert_ne.
Qed.

Lemma mkdir_dirs d t d' :
  is_Some (mkdir d t !! d') ↔ d' = d ∨ is_Some (t !! d').
Proof.
  unfold mkdir. destruct (t !! d) eqn:Hd.
  - split; [auto|]. intros [->|H]; [rewrite Hd; eauto | exact H].
  - destruct (decide (d' = d)) as [->|Hne].
    + rewrite lookup_insert_eq. split; eauto.
    + rewrite lookup_insert_ne by done. split; [auto|]. by intros [?|?].
Qed.

Lemma foldl_mkdir (l : list (pystr * pystr)) t n :
  (∀ d, is_Some (foldl (λ t kv, mkdir kv.2 t) t l !! d) ↔
        d ∈ l.*2 ∨ is_Some (t !! d)) ∧
  (∀ d f, file_at (World (foldl (λ t kv, mkdir kv.2 t) t l) n) d f
          = file_at (World t n) d f).
Proof.
  revert t. induction l as [|[k v] l IH]; intros t; cbn [foldl].
  - split; [|done]. intros d. rewrite fmap_nil, elem_of_nil. tauto.
  - destruct (IH (mkdir v t)) as [Hd Hf]. split.
    + intros d. rewrite Hd, mkdir_dirs, fmap_cons, elem_of_cons. simpl. tauto.
    + intros d f. rewrite Hf. apply mkdir_file.
Qed.

Lemma write_tree t n d f v dir :
  t !! d = Some dir →
  write_json d f v (World t n) = (Ret (), World (<[d := <[f := Json v]> dir]> t) n).
Proof. intros Hd. unfold write_json. simpl. by rewrite Hd. Qed.

Lemma convert_cases E content t n :
  initialised (World t n) →
  (convert E content t = t ∧ ∃ e, parse_toolkit E content = Raise e) ∨
  (∃ b d i, parse_toolkit E content = Ret b ∧
     b !! "domain" = Some (VStr d) ∧ b !! "id" = Some (VStr i) ∧
     write_json d (i ++ py ".json") (VDict b) (World t n)
       = (Ret (), World (convert E content t) n)).
Proof.
  intros Hinit. unfold convert.
  destruct (parse_toolkit E content) as [b|e] eqn:Hparse; [|left; eauto].
  right. destruct (parse_toolkit_place _ _ _ Hparse) as (d & i & Hd & Hi & Hin).
  destruct (Hinit d Hin) as [dir Hdir]. simpl in Hdir.
  exists b, d, i. split; [reflexivity|]. split; [exact Hd|]. split; [exact Hi|].
  cbn [mbind outcome_bind]. unfold save. rewrite Hd, Hi, Hdir.
  by apply write_tree.
Qed.

Lemma convert_initialised E content t n :
  initialised (World t n) → initialised (World (convert E content t) n).
Proof.
  intros Hinit. destruct (convert_cases E content t n Hinit)
    as [[-> _]|(b & d & i & _ & _ & _ & Hw)]; [exact Hinit|].
  intros d' Hd'. apply (write_json_dirs _ _ _ _ _ Hw). by apply Hinit.
Qed.

Lemma convert_all_initialised files t n :
  initialised (World t n) → initialised (World (convert_all files t) n).
Proof.
  revert t. induction files as [|[E content] files IH]; intros t Hinit; [exact Hinit|].
  cbn [convert_all]. by apply IH, convert_initialised.
Qed.

Lemma convert_all_consistent files t n :
  initialised (World t n) → consistent (World t n) →
  consistent (World (convert_all files t) n).
Proof.
  revert t. induction files as [|[E content] files IH]; intros t Hinit Hcons;
    [exact Hcons|].
  cbn [convert_all]. apply IH; [by apply convert_initialised|].
  destruct (convert_cases E content t n Hinit)
    as [[-> _]|(b & d & i & _ & Hd & Hi & Hw)]; [exact Hcons|].
  intros d' i' v. rewrite (file_at_write _ _ _ _ _ _ _ Hw). case_decide as Hdf.
  - destruct Hdf as [-> ->%json_name_inj]. intros [= <-]. eauto.
  - apply Hcons.
Qed.

Lemma convert_all_origin files t n d f c :
  initialised (World t n) →
  file_at (World (convert_all files t) n) d f = Some c →
  file_at (World t n) d f = Some c ∨
  ∃ E content b i, (E, content) ∈ files ∧ parse_toolkit E content = Ret b ∧
    b !! "domain" = Some (VStr d) ∧ b !! "id" = Some (VStr i) ∧
    f = i ++ py ".json" ∧ c = Json (VDict b).
Proof.
  revert t. induction files as [|[E content] files IH]; intros t Hinit; [by left|].
  cbn [convert_all]. intros Hc.
  destruct (IH _ (convert_initialised E content t n Hinit) Hc)
    as [Hc'|(E' & content' & b & i & Hin & H)]; clear Hc; [rename Hc' into Hc|].
  - destruct (convert_cases E content t n Hinit)
      as [[Heq _]|(b & d0 & i & Hparse & Hd & Hi & Hw)].
    + left. by rewrite Heq in Hc.
    + rewrite (file_at_write _ _ _ _ _ _ _ Hw) in Hc. case_decide as Hdf.
      * destruct Hdf as [-> ->]. injection Hc as <-.
        right. exists E, content, b, i. split; [by left | done].
      * by left.
  - right. exists E', content', b, i. split; [by right | done].
Qed.

Lemma convert_all_no_loss files t n d f :
  initialised (World t n) →
  is_Some (file_at (World t n) d f) →
  is_Some (file_at (World (convert_all files t) n) d f).
Proof.
  revert t. induction files as [|[E content] files IH]; intros t Hinit Hf; [exact Hf|].
  cbn [convert_all]. apply IH; [by apply convert_initialised|].
  destruct (convert_cases E content t n Hinit)
    as [[-> _]|(b & d0 & i & _ & _ & _ & Hw)]; [exact Hf|].
  rewrite (file_at_write _ _ _ _ _ _ _ Hw). case_decide; [eauto | exact Hf].
Qed.

Lemma convert_all_keeps files t n d i b :
  initialised (World t n) →
  file_at (World t n) d (i ++ py ".json") = Some (Json (VDict b)) →
  (∀ E' content' b', (E', content') ∈ files → parse_toolkit E' content' = Ret b' →
     b' !! "domain" = Some (VStr d) → b' !! "id" = Some (VStr i) → b' = b) →
  file_at (World (convert_all files t) n) d (i ++ py ".json") = Some (Json (VDict b)).
Proof.
  revert t. induction files as [|[E content] files IH]; intros t Hinit Hf Huniq;
    [exact Hf|].
  cbn [convert_all]. apply IH; [by apply convert_initialised| |].
  - destruct (convert_cases E content t n Hinit)
      as [[-> _]|(b' & d' & i' & Hparse & Hd & Hi & Hw)]; [exact Hf|].
    rewrite (file_at_write _ _ _ _ _ _ _ Hw). case_decide as Hdf; [|exact Hf].
    destruct Hdf as [-> ->%json_name_inj].
    by rewrite (Huniq E content b' (ltac:(by left)) Hparse Hd Hi).
  - intros E' content' b' Hin. apply Huniq. by right.
Qed.

Lemma convert_all_stored files t n E content b :
  initialised (World t n) →
  (E, content) ∈ files → parse_toolkit E content = Ret b →
  ∃ d i, b !! "domain" = Some (VStr d) ∧ b !! "id" = Some (VStr i) ∧
    d ∈ Manager.DOMAINS ∧
    ((∀ E' content' b', (E', content') ∈ files → parse_toolkit E' content' = Ret b' →
        b' !! "domain" = Some (VStr d) → b' !! "id" = Some (VStr i) → b' = b) →
     file_at (World (convert_all files t) n) d (i ++ py ".json")
       = Some (Json (VDict b))).
Proof.
  revert t. induction files as [|[E0 content0] files IH]; intros t Hinit Hin Hparse;
    [by apply elem_of_nil in Hin|].
  cbn [convert_all]. apply elem_of_cons in Hin as [[= <- <-]|Hin].
  - destruct (parse_toolkit_place _ _ _ Hparse) as (d & i & Hd & Hi & HD).
    exists d, i. split; [exact Hd|]. split; [exact Hi|]. split; [exact HD|].
    intros Huniq. apply convert_all_keeps; [by apply convert_initialised| |].
    + destruct (convert_cases E content t n Hinit)
        as [[_ [e He]]|(b' & d' & i' & Hparse' & Hd' & Hi' & Hw)]; [congruence|].
      rewrite Hparse in Hparse'. injection Hparse' as <-.
      rewrite Hd in Hd'. injection Hd' as <-. rewrite Hi in Hi'. injection Hi' as <-.
      rewrite (file_at_write _ _ _ _ _ _ _ Hw). by rewrite decide_True.
    + intros E' content' b' Hin'. apply Huniq. by right.
  - destruct (IH (convert E0 content0 t) (convert_initialised _ _ _ _ Hinit) Hin Hparse)
      as (d & i & Hd & Hi & HD & Hst).
    exists d, i. split; [exact Hd|]. split; [exact Hi|]. split; [exact HD|].
    intros Huniq. apply Hst. intros E' content' b' Hin'. apply Huniq. by right.
Qed.

(** X25: what [main] leaves in the output directory.  The five domain
    directories exist; no file that was there is lost; every file is one
    that was there or the record of a document that parsed, under its
    [domain] and [<id>.json]; and the files still lie where their fields
    say.  A document that fails to parse changes nothing and stops
    nothing: the record of every document that parses is in place at the
    end, where the manager's [get_block] finds it, unless another document
    of the batch yields another record of the same [id] and [domain].
    Without a toolkit directory nothing happens. *)
Theorem main_stores_records (ME : Manager.env) files t n :
  main None t = t ∧
  initialised (World (main (Some files) t) n) ∧
  (consistent (World t n) → consistent (World (main (Some files) t) n)) ∧
  (∀ d f, is_Some (file_at (World t n) d f) →
     is_Some (file_at (World (main (Some files) t) n) d f)) ∧
  (∀ d f c, file_at (World (main (Some files) t) n) d f = Some c →
     file_at (World t n) d f = Some c ∨
     ∃ E content b i, (E, content) ∈ files ∧ parse_toolkit E content = Ret b ∧
       b !! "domain" = Some (VStr d) ∧ b !! "id" = Some (VStr i) ∧
       f = i ++ py ".json" ∧ c = Json (VDict b)) ∧
  (∀ E content b, (E, content) ∈ files → parse_toolkit E content = Ret b →
     ∃ d i, b !! "domain" = Some (VStr d) ∧ b !! "id" = Some (VStr i) ∧
       ((∀ E' content' b', (E', content') ∈ files →
           parse_toolkit E' content' = Ret b' →
           b' !! "domain" = Some (VStr d) → b' !! "id" = Some (VStr i) → b' = b) →
        get_block ME i (Some d) (World (main (Some files) t) n)
          = (Ret (VDict b), World (main (Some files) t) n))).
Proof.
  split; [reflexivity|]. cbn [main].
  set (t0 := foldl (λ t kv, mkdir kv.2 t) t domain_map).
  destruct (foldl_mkdir domain_map t n) as [Hdirs Hfiles]. fold t0 in Hdirs, Hfiles.
  assert (initialised (World t0 n)) as Hinit.
  { intros d Hd. apply Hdirs. left. revert d Hd. apply Forall_forall.
    repeat constructor; apply (bool_decide_unpack _); vm_compute; reflexivity. }
  assert (consistent (World t n) → consistent (World t0 n)) as Hcons.
  { intros Hc d i v. rewrite Hfiles. apply Hc. }
  split; [by apply convert_all_initialised|].
  split; [intros Hc; by apply convert_all_consistent, Hcons|].
  split.
  { intros d f Hf. apply convert_all_no_loss; [exact Hinit | by rewrite Hfiles]. }
  split.
  { intros d f c Hc. rewrite <- Hfiles. by apply convert_all_origin. }
  intros E content b Hin Hparse.
  destruct (convert_all_stored files t0 n E content b Hinit Hin Hparse)
    as (d & i & Hd & Hi & HD & Hst).
  exists d, i. split; [exact Hd|]. split; [exact Hi|].
  intros Huniq. specialize (Hst Huniq).
  pose proof (DOMAINS_nonempty d HD) as Hne.
  destruct d as [|c d]; [done|]. unfold get_block.
  rewrite bind_unfold. unfold path_exists, read_json. rewrite Hst.
  rewrite bool_decide_eq_true_2 by eauto. by rewrite Hst.
Qed.

End Batch.

(** ** The metadata lines *)

Section MetaLines.

Import Converter.

Lemma split_once_unfold sep w s :
  split_once sep w s =
    if startswith sep s then Some (reverse w, drop (length sep) s)
    else match s with
         | [] => None
         | c :: s' => split_once sep (c :: w) s'
         end.
Proof. by destruct s. Qed.

Lemma split_once_first sep w pre post :
  (∀ p q, pre = p ++ q → q ≠ [] → startswith sep (q ++ sep ++ post) = false) →
  split_once sep w (pre ++ sep ++ post) = Some (reverse w ++ pre, post).
Proof.
  revert w. induction pre as [|c pre IH]; intros w Hno.
  - rewrite split_once_unfold. change ([] ++ sep ++ post) with (sep ++ post).
    assert (startswith sep (sep ++ post) = true) as ->
      by (apply startswith_iff; eauto).
    by rewrite drop_app_length, app_nil_r.
  - rewrite split_once_unfold.
    rewrite (Hno [] (c :: pre)) by done.
    cbn [app]. rewrite IH.
    + by rewrite reverse_cons, <- app_assoc.
    + intros p q -> Hq. by apply (Hno (c :: p) q).
Qed.

Lemma no_start_of_pair a b pre post :
  contains [a; b] pre = false → a ≠ b →
  ∀ p q, pre = p ++ q → q ≠ [] → startswith [a; b] (q ++ [a; b] ++ post) = false.
Proof.
  intros Hno Hab p q -> Hq.
  destruct q as [|x [|y q]]; [done| |].
  - cbn [app startswith]. apply andb_false_iff. right.
    apply andb_false_iff. left. apply N.eqb_neq. congruence.
  - destruct (startswith [a; b] ((x :: y :: q) ++ [a; b] ++ post)) eqn:Hs;
      [|reflexivity].
    cbn [app startswith] in Hs.
    apply andb_true_iff in Hs as [->%N.eqb_eq Hs].
    apply andb_true_iff in Hs as [->%N.eqb_eq _].
    exfalso. assert (contains [x; y] (p ++ x :: y :: q) = true) as Hc.
    { apply contains_iff. by exists p, q. }
    congruence.
Qed.

Lemma contains_colon_key key :
  contains (py ": ") key = false →
  contains (py ": ") (py "- **" ++ key ++ py "**") = false.
Proof.
  intros Hk.
  change (py "- **" ++ key ++ py "**")
    with (py "- " ++ 42 :: ([] ++ 42 :: (key ++ 42 :: ([] ++ 42 :: [])))).
  assert (42 ∉ py ": ") as H42
    by (apply (bool_decide_unpack _); vm_compute; reflexivity).
  rewrite !(contains_sep _ _ 42) by exact H42.
  rewrite Hk. reflexivity.
Qed.

Lemma split_once_line key value :
  contains (py ": ") key = false →
  split_once (py ": ") [] (line_text (key, value))
  = Some (py "- **" ++ key ++ py "**", value).
Proof.
  intros Hk. unfold line_text.
  change (py "- **" ++ key ++ py "**: " ++ value)
    with (py "- **" ++ key ++ py "**" ++ py ": " ++ value).
  replace (py "- **" ++ key ++ py "**" ++ py ": " ++ value)
    with ((py "- **" ++ key ++ py "**") ++ py ": " ++ value)
    by (by rewrite <- !app_assoc).
  rewrite split_once_first; [reflexivity|].
  apply (no_start_of_pair 58 32); [by apply contains_colon_key | done].
Qed.

Lemma strip_key key :
  key ≠ [] → (42 ∉ key) →
  match key with [] => True | c :: _ => dash_space_star c = false end →
  match reverse key with [] => True | c :: _ => dash_space_star c = false end →
  strip_by (N.eqb 42) (strip_by dash_space_star (py "- **" ++ key ++ py "**")) = key.
Proof.
  intros Hne Hstar Hhead Hlast.
  assert (strip_by dash_space_star (py "- **" ++ key ++ py "**") = key) as ->.
  { unfold strip_by, rstrip_by.
    assert (lstrip_by dash_space_star (py "- **" ++ key ++ py "**") = key ++ py "**")
      as ->.
    { destruct key as [|c key]; [done|]. change (py "- **") with [45; 32; 42; 42].
      cbn [app lstrip_by]. change (dash_space_star 45) with true.
      change (dash_space_star 32) with true. change (dash_space_star 42) with true.
      cbv iota. by rewrite Hhead. }
    rewrite reverse_app. change (reverse (py "**")) with [42; 42].
    cbn [app lstrip_by]. change (dash_space_star 42) with true. cbv iota.
    rewrite lstrip_by_keep by exact Hlast. apply reverse_involutive. }
  apply strip_by_keep. apply Forall_forall. intros c Hc. apply N.eqb_neq.
  intros <-. by apply Hstar.
Qed.

Lemma read_meta_lines kvs meta_info :
  Forall plain kvs → Forall (λ kv, clean kv.1) kvs →
  read_meta ((line_text <$> kvs) ++ [[]]) meta_info
  = Ret (foldl (λ m kv, <[kv.1 := strip kv.2]> m) meta_info kvs).
Proof.
  intros Hplain Hclean. revert meta_info.
  induction kvs as [|[key value] kvs IH]; intros meta_info; [reflexivity|].
  apply Forall_cons in Hplain as [(Hk & Hstar & _ & _ & _) Hplain].
  apply Forall_cons in Hclean as [(Hcolon & Hhead & Hlast) Hclean].
  rewrite fmap_cons. cbn [app read_meta foldl].
  assert (contains (py "- **") (line_text (key, value)) = true) as ->.
  { apply contains_iff. exists [], (key ++ py "**: " ++ value). reflexivity. }
  rewrite split_once_line by exact Hcolon.
  cbn [fst snd] in *. rewrite strip_key by assumption.
  by apply IH.
Qed.

(** X24: reading the metadata block.  For lines [- **key**: value] whose keys
    hold no star, no line feed and no colon followed by a space, and do not
    start or end with a dash or a space, the loop of [parse_toolkit] maps
    every key to its value without the white space around it, a later line
    replacing an earlier one of the same key; and in a document of the
    shape of the toolkit files, the [context] of the record is what this
    mapping has under "适用场景", or the empty string. *)
Theorem metadata_is_read (E : Converter.env) kvs :
  Forall plain kvs → Forall (λ kv, clean kv.1) kvs →
  read_meta (split_on 10 (meta_block kvs)) ∅ = Ret (meta_of kvs) ∧
  (∀ pre post, kvs ≠ [] → 35 ∉ pre → startswith (py "- **") post = false →
     ∃ d, parse_toolkit E (QUOTE_TITLE ++ nl ++ nl ++ pre ++ meta_block kvs ++ post)
          = Ret d ∧
       d !! "context" = Some (VStr (default [] (meta_of kvs !! py "适用场景")))).
Proof.
  intros Hplain Hclean.
  assert (read_meta (split_on 10 (meta_block kvs)) ∅ = Ret (meta_of kvs)) as Hread.
  { rewrite split_on_block by exact Hplain. cbn [read_meta].
    replace (contains (py "- **") HEADING) with false by (vm_compute; reflexivity).
    by apply read_meta_lines. }
  split; [exact Hread|].
  intros pre post Hne Hpre Hpost. destruct kvs as [|kv kvs]; [done|].
  destruct (search_meta_quote pre kv kvs post Hpre Hplain Hpost) as (m & Hm & Hg).
  unfold parse_toolkit.
  change (QUOTE_TITLE ++ nl ++ nl ++ pre ++ meta_block (kv :: kvs) ++ post)
    with (QUOTE_TITLE ++ nl ++ (nl ++ pre ++ meta_block (kv :: kvs) ++ post)) at 1.
  rewrite title_found. rewrite Hm, Hg, Hread.
  cbn [stop group1 default mbind outcome_bind]. unfold id. rewrite quote_parts.
  cbn [lookup list_lookup].
  match goal with |- context [("context", VStr ?x)] => set (context := x) end.
  match goal with |- context [("content", VStr ?x)] => set (core := x) end.
  match goal with |- context [("id", VStr ?x)] => set (i := x) end.
  match goal with |- context [("created_at", VStr ?x)] => set (c := x) end.
  match goal with |- context [("updated_at", VStr ?x)] => set (u := x) end.
  eexists. split; [reflexivity|].
  change (default [] (meta_of (kv :: kvs) !! py "适用场景")) with context.
  clearbody context core i c u. vm_compute. reflexivity.
Qed.

End MetaLines.

(** ** Closed instances *)

(** C2 fails as stated: the stored version is 1.0, the payload carries
    version 3.5, and the update leaves version 3.6, with another major
    component. *)
Lemma update_takes_version_from_payload :
  Sample.pricing !! "version" = Some (VStr (py "1.0")) ∧
  ∃ b' w',
    update_block Sample.E (py "pricing") {[ "version" := VStr (py "3.5") ]}
      Sample.world1 = (Ret (VDict b'), w') ∧
    b' !! "version" = Some (VStr (py "3.6")) ∧
    parse_version (py "1.0") = Ret (1, 0)%Z ∧
    parse_version (py "3.6") = Ret (3, 6)%Z.
Proof.
  split; [vm_compute; reflexivity|].
  exists (Sample.as_dict (Sample.result (update_block Sample.E (py "pricing")
            {[ "version" := VStr (py "3.5") ]}) Sample.world1).1),
         (Sample.result (update_block Sample.E (py "pricing")
            {[ "version" := VStr (py "3.5") ]}) Sample.world1).2.
  vm_compute. done.
Qed.

Lemma update_bumps_minor_witness :
  Sample.as_dict Sample.updated1.1 !! "version" = Some (VStr (py "1.1")) ∧
  Sample.as_dict Sample.updated2.1 !! "version" = Some (VStr (py "1.2")).
Proof.
  split.
  - destruct (proj2 (update_bumps_minor Sample.E (py "pricing")
        {[ "content" := VStr (py "Quote by value.") ]} Sample.world1
        Sample.pricing Sample.updated1.1 Sample.updated1.2
        ltac:(vm_compute; reflexivity) ltac:(vm_compute; reflexivity)
        ltac:(vm_compute; reflexivity)) (py "1.0") ltac:(vm_compute; reflexivity))
      as (b' & major & minor & Hv & _ & _ & _ & H11 & _).
    rewrite Hv. simpl. by apply H11.
  - destruct (proj2 (update_bumps_minor Sample.E (py "pricing")
        {[ "content" := VStr (py "Quote by outcome.") ]} Sample.updated1.2
        (Sample.as_dict Sample.updated1.1) Sample.updated2.1 Sample.updated2.2
        ltac:(vm_compute; reflexivity) ltac:(vm_compute; reflexivity)
        ltac:(vm_compute; reflexivity)) (py "1.1") ltac:(vm_compute; reflexivity))
      as (b' & major & minor & Hv & _ & _ & _ & _ & H12).
    rewrite Hv. simpl. by apply H12.
Defined.



(** C5 fails on the code.  [update_block] refreshes [updated_at], the two
    other mutations do not: after [increment_usage] and after
    [add_feedback], run when the clock reads 2024-05-01T10:00:00, the saved
    block still carries the [updated_at] of 2024-04-01 it had before. *)
Theorem usage_and_feedback_keep_updated_at :
  clock Sample.E (ticks Sample.world1) = py "2024-05-01T10:00:00" ∧
  Sample.pricing !! "updated_at" = Some (VStr (py "2024-04-01T09:00:00")) ∧
  (∃ b' w',
     increment_usage Sample.E (py "pricing") Sample.world1 = (Ret (VDict b'), w') ∧
     b' !! "usage_count" = Some (VInt 1) ∧
     file_at w' (py "defense") (py "pricing.json") = Some (Json (VDict b')) ∧
     b' !! "updated_at" = Some (VStr (py "2024-04-01T09:00:00"))) ∧
  (∃ b' w',
     add_feedback Sample.E (py "pricing") {[ "rating" := VInt 3 ]} Sample.world1
       = (Ret (VDict b'), w') ∧
     b' !! "rating" = Some (VFloat 3) ∧
     file_at w' (py "defense") (py "pricing.json") = Some (Json (VDict b')) ∧
     b' !! "updated_at" = Some (VStr (py "2024-04-01T09:00:00"))) ∧
  (∃ b' w',
     update_block Sample.E (py "pricing")
       {[ "content" := VStr (py "Quote by value.") ]} Sample.world1
       = (Ret (VDict b'), w') ∧
     b' !! "updated_at" = Some (VStr (py "2024-05-01T10:00:00"))).
Proof.
  split; [vm_compute; reflexivity|]. split; [vm_compute; reflexivity|].
  split; [|split].
  - exists (Sample.as_dict Sample.used.1), Sample.used.2. vm_compute. done.
  - exists (Sample.as_dict Sample.rated3.1), Sample.rated3.2. vm_compute. done.
  - exists (Sample.as_dict Sample.updated1.1), Sample.updated1.2. vm_compute. done.
Qed.

Lemma validation_failure_is_atomic_witness :
  (∃ w', create_block Sample.E Sample.untyped Sample.world1
           = (Raise (ValueError (py "Missing required field: type")), w') ∧
         fs w' = fs Sample.world1) ∧
  (∃ w', update_block Sample.E (py "pricing") {[ "title" := VInt 7 ]} Sample.world1
           = (Raise (ValueError (py "Field title should be a string")), w') ∧
         fs w' = fs Sample.world1).
Proof.
  split.
  - apply (proj1 (validation_failure_is_atomic Sample.E) Sample.untyped
             Sample.world1 Sample.untyped_with_id.1 Sample.untyped_with_id.2);
      vm_compute; reflexivity.
  - apply (proj2 (validation_failure_is_atomic Sample.E) (py "pricing")
             {[ "title" := VInt 7 ]} Sample.world1 Sample.pricing
             (Sample.as_dict (Sample.result (λ w, (
                 match bump_version (<["updated_at" := VStr (clock Sample.E (ticks w))]>
                        ({[ "title" := VInt 7 ]} ∪ Sample.pricing)) with
                 | Ret m => Ret (VDict m) | Raise e => Raise e end, w)) Sample.world1).1));
      vm_compute; reflexivity.
Defined.

(** C7 fails as stated: with the id [pricing] held by [defense] and by
    [mindset], [delete_block] returns true and [get_block] then still finds
    a block, the one of [mindset]. *)
Lemma delete_leaves_the_other_domain :
  ∃ w' b,
    delete_block Sample.E (py "pricing") Sample.world2 = (Ret true, w') ∧
    get_block Sample.E (py "pricing") None w' = (Ret (VDict b), w') ∧
    b !! "domain" = Some (VStr (py "mindset")).
Proof.
  exists Sample.deleted2,
    (Sample.as_dict (Sample.result (get_block Sample.E (py "pricing") None)
                       Sample.deleted2).1).
  vm_compute. done.
Qed.

Lemma delete_then_get_witness :
  delete_block Sample.E (py "absent") Sample.world1 = (Ret false, Sample.world1) ∧
  ∃ w', delete_block Sample.E (py "pricing") Sample.world1 = (Ret true, w') ∧
        get_block Sample.E (py "pricing") None w' = (Ret VNone, w').
Proof.
  split.
  - apply (proj1 (delete_then_get Sample.E (py "absent") Sample.world1)).
    intros d Hd. unfold DOMAINS in Hd.
    repeat (apply elem_of_cons in Hd as [->|Hd]; [vm_compute; reflexivity|]).
    apply elem_of_nil in Hd. destruct Hd.
  - destruct (proj2 (delete_then_get Sample.E (py "pricing") Sample.world1)
                ltac:(apply consistentb_sound; vm_compute; reflexivity)
                Sample.pricing ltac:(vm_compute; reflexivity))
      as (d & w' & Hd & Hdel & _ & _ & Hget).
    exists w'. split; [exact Hdel|]. apply Hget.
    assert (Sample.pricing !! "domain" = Some (VStr (py "defense"))) as Hdom
      by (vm_compute; reflexivity).
    rewrite Hdom in Hd. injection Hd as <-.
    intros d' Hd' Hne. unfold DOMAINS in Hd'.
    apply elem_of_cons in Hd' as [->|Hd']; [exfalso; apply Hne; reflexivity|].
    repeat (apply elem_of_cons in Hd' as [->|Hd']; [vm_compute; reflexivity|]).
    apply elem_of_nil in Hd'. destruct Hd'.
Defined.

(** C1 fails on the code.  The title and the content are lower-cased, the
    tags are not: the block tagged [Efficiency] is missed by the query
    [efficiency], which the specification's test accepts, while the same
    difference of case in the title is bridged. *)
Theorem search_misses_capitalised_tag :
  Sample.tagged !! "title" = Some (VStr (py "Time boxing")) ∧
  Sample.tagged !! "content" = Some (VStr (py "Plan the day in blocks.")) ∧
  Sample.tagged !! "tags" = Some (VList [VStr (py "Efficiency")]) ∧
  spec_matches (py "efficiency") (py "Time boxing") (py "Plan the day in blocks.")
               [py "Efficiency"] = true ∧
  search_blocks Sample.E (py "efficiency") (Some (py "efficiency")) Sample.world3
    = (Ret [], Sample.world3) ∧
  search_blocks Sample.E (py "time") (Some (py "efficiency")) Sample.world3
    = (Ret [VDict Sample.tagged], Sample.world3).
Proof. vm_compute. repeat split. Qed.





(** ** Closed instances of the further properties *)

(** X1 on the sample record: the version and the usage count the caller
    left out, and the title the caller gave. *)
Lemma create_fills_defaults_witness :
  Sample.as_dict Sample.created.1 !! "version" = Some (VStr (py "1.0")) ∧
  Sample.as_dict Sample.created.1 !! "usage_count" = Some (VInt 0) ∧
  Sample.as_dict Sample.created.1 !! "title" = Some (VStr (py "Scope creep")).
Proof.
  destruct (create_fills_defaults Sample.E Sample.scope_creep Sample.world1
              (Sample.as_dict Sample.created.1) Sample.created.2
              ltac:(vm_compute; reflexivity))
    as (n & _ & _ & _ & Hkept & Hdef & _).
  split; [|split].
  - apply Hdef; [vm_compute; reflexivity|]. unfold DEFAULTS.
    rewrite !elem_of_cons. right. left. reflexivity.
  - apply Hdef; [vm_compute; reflexivity|]. unfold DEFAULTS.
    rewrite !elem_of_cons. do 2 right. left. reflexivity.
  - apply Hkept; [vm_compute; reflexivity | done].
Defined.



(** X4 on the stored sample block, which the sample schema accepts. *)
Lemma validate_block_iff_witness :
  _validate_block Sample.E Sample.pricing = Ret () ∧
  ∀ f, f ∈ required (schema Sample.E) → is_Some (Sample.pricing !! f).
Proof.
  assert (_validate_block Sample.E Sample.pricing = Ret ()) as H
    by (vm_compute; reflexivity).
  split; [exact H|].
  exact (proj1 (proj1 (proj1 (validate_block_iff Sample.E Sample.pricing)) H)).
Defined.

(** X5 on the sample record without its type: a required field is
    lacking. *)
Lemma validate_block_error_witness :
  ∃ f, f ∈ required (schema Sample.E) ∧ Sample.untyped !! f = None.
Proof.
  destruct (validate_block_error Sample.E Sample.untyped
              (ValueError (py "Missing required field: id"))
              ltac:(vm_compute; reflexivity))
    as [(pre & f & post & Hreq & _ & Hf & _)|[Hall _]].
  - exists f. split; [|exact Hf]. rewrite Hreq. apply elem_of_app. right. by left.
  - destruct (Hall "type") as [x Hx];
      [apply (bool_decide_unpack _); vm_compute; reflexivity|].
    vm_compute in Hx. discriminate Hx.
Defined.



(** X8 on an identifier no directory holds, and on one whose file holds
    the empty object. *)
Lemma not_found_is_noop_witness :
  increment_usage Sample.E (py "nothing") Sample.world1 = (Ret VNone, Sample.world1) ∧
  delete_block Sample.E (py "pricing") Sample.hollow = (Ret false, Sample.hollow).
Proof.
  split.
  - refine (proj1 (proj2 (proj2 (not_found_is_noop Sample.E (py "nothing")
                                   Sample.world1 (or_introl _))))).
    apply Forall_forall. repeat constructor; vm_compute; reflexivity.
  - refine (proj2 (proj2 (proj2 (not_found_is_noop Sample.E (py "pricing")
                                   Sample.hollow (or_intror _))))).
    exists [], (py "defense"),
      [py "proactive"; py "mindset"; py "efficiency"; py "relationship"], (VDict ∅).
    split; [reflexivity|]. split.
    + intros d' Hd'. apply elem_of_nil in Hd'. destruct Hd'.
    + split; vm_compute; reflexivity.
Defined.




(** X12 after [increment_usage] on the sample. *)
Lemma get_after_write_witness :
  get_block Sample.E (py "pricing") None Sample.used.2
    = (Ret Sample.used.1, Sample.used.2).
Proof.
  refine (proj2 (proj2 (get_after_write Sample.E (py "pricing") Sample.world1
                          Sample.pricing _ _)) Sample.used.1 Sample.used.2 _).
  - apply consistentb_sound. vm_compute. reflexivity.
  - vm_compute. reflexivity.
  - vm_compute. reflexivity.
Defined.


(** X14 on the first sample feedback: the sequence was empty and has one
    entry, with the rating the caller gave. *)
Lemma feedback_is_appended_witness :
  ∃ m entry, Sample.rated3.1 = VDict m ∧
    m !! "feedback" = Some (VList [VDict entry]) ∧
    entry !! "rating" = Some (VInt 3).
Proof.
  destruct (feedback_is_appended Sample.E (py "pricing") {[ "rating" := VInt 3 ]}
              Sample.world1 Sample.pricing Sample.rated3.1 Sample.rated3.2
              ltac:(vm_compute; reflexivity) ltac:(vm_compute; reflexivity)
              ltac:(vm_compute; reflexivity))
    as (m & old & Hv & Hold & Hfb & _ & _ & _ & Hkeep & _).
  assert (old = []) as ->.
  { destruct Hold as [Hold|[_ ->]]; [|reflexivity].
    assert (Sample.pricing !! "feedback" = Some (VList [])) as H
      by (vm_compute; reflexivity).
    rewrite H in Hold. by injection Hold as <-. }
  exists m, (stamped Sample.E (py "pricing") {[ "rating" := VInt 3 ]} Sample.world1).
  split; [exact Hv|]. split; [exact Hfb|].
  rewrite Hkeep by done. vm_compute. reflexivity.
Defined.


(** X16 on the sample store: the same words in another order and another
    case have the same result. *)
Lemma search_conjunction_witness :
  search_blocks Sample.E (py "hours value") None Sample.world1
  = search_blocks Sample.E (py "VALUE  Hours value") None Sample.world1.
Proof.
  apply (proj2 (search_conjunction Sample.E None Sample.world1)).
  assert (split (lower (py "hours value")) = [py "hours"; py "value"]) as ->
    by (vm_compute; reflexivity).
  assert (split (lower (py "VALUE  Hours value")) = [py "value"; py "hours"; py "value"])
    as -> by (vm_compute; reflexivity).
  intros t. rewrite !elem_of_cons, !elem_of_nil. tauto.
Defined.

(** X17 on the store with a JSON list among its files. *)
Lemma unsearchable_file_witness :
  (∃ e, search_blocks Sample.E (py "value") None Sample.listed
        = (Raise e, Sample.listed)) ∧
  export_blocks Sample.E (py "markdown") Sample.listed
    = (Raise AttributeError, Sample.listed).
Proof.
  destruct (unsearchable_file Sample.E (py "defense") (py "notes.json") (VList [])
              Sample.listed
              ltac:(apply (bool_decide_unpack _); vm_compute; reflexivity)
              ltac:(vm_compute; reflexivity)
              ltac:(vm_compute; reflexivity) ltac:(vm_compute; reflexivity))
    as (Hsearch & _ & _ & _ & Hmd).
  split; [apply Hsearch|]. apply Hmd. intros b. discriminate.
Defined.

(** X21 on the title of the specification's example. *)
Lemma converter_id_shape_witness :
  Converter.generate_id Sample.CE (py "报价-价值定价策略") = py "_0f8fad5b".
Proof.
  rewrite (proj2 (proj2 (proj2 (proj2
             (converter_id_shape Sample.CE (py "报价-价值定价策略")))))).
  - vm_compute. reflexivity.
  - apply Forall_forall. intros c Hc.
    assert (forallb (λ c, caseless c && negb (is_slug_char (lower_char c)))
              (py "报价-价值定价策略") = true) as H
      by (vm_compute; reflexivity).
    rewrite forallb_forall in H. apply list_elem_of_In in Hc.
    apply H in Hc. apply andb_true_iff in Hc as [H1 H2].
    split; [exact H1 | by apply negb_true_iff].
Defined.

(** X22 on a document without any heading. *)
Lemma title_without_dash_witness :
  ∃ e, parse_toolkit Sample.CE (py "no heading here") = Raise e.
Proof.
  destruct (title_without_dash Sample.CE (py "no heading here")) as [Hnone Hraise].
  destruct Hraise as (e & He & _); [|by exists e].
  left. apply Hnone. apply (bool_decide_unpack _). vm_compute. reflexivity.
Defined.

Lemma cramped_parsed :
  parse_toolkit Sample.CE Sample.cramped = Ret Sample.cramped_record.
Proof. vm_compute. reflexivity. Qed.

(** X23 on the document without an empty line after the title. *)
Lemma emitted_record_witness :
  ∃ domain, Sample.cramped_record !! "domain" = Some (VStr domain) ∧
    domain ∈ Manager.DOMAINS.
Proof.
  destruct (emitted_record Sample.CE Sample.cramped Sample.cramped_record
              cramped_parsed)
    as (title & domain_key & type_key & domain & type_ & _ & _ & _ & _ & _ & Hd & _ & Hin & _).
  by exists domain.
Defined.

(** X24 on the two metadata lines of the sample. *)
Lemma metadata_is_read_witness :
  read_meta (split_on 10 (meta_block [Sample.scenario; Sample.difficulty])) ∅
  = Ret (meta_of [Sample.scenario; Sample.difficulty]).
Proof.
  refine (proj1 (metadata_is_read Sample.CE [Sample.scenario; Sample.difficulty] _ _)).
  - repeat constructor; try (intros H; discriminate H);
      apply (bool_decide_unpack _); vm_compute; exact I.
  - apply Forall_cons_2; [|apply Forall_cons_2; [|apply Forall_nil_2]];
      (split; [|split]); vm_compute; reflexivity.
Defined.

(** X25 on the batch of two documents: the first is passed over, the
    record of the second is found by [get_block]. *)
Lemma main_stores_records_witness :
  get_block Sample.E (py "_0f8fad5b") (Some (py "defense")) (World Sample.converted 0)
  = (Ret (VDict Sample.cramped_record), World Sample.converted 0).
Proof.
  assert (main (Some Sample.batch) ∅ = Sample.converted) as Hmain
    by (vm_compute; reflexivity).
  pose proof cramped_parsed as Hparse.
  destruct (main_stores_records Sample.E Sample.batch ∅ 0)
    as (_ & _ & _ & _ & _ & Hstored).
  destruct (Hstored Sample.CE Sample.cramped Sample.cramped_record
              ltac:(apply elem_of_cons; right; apply elem_of_cons; left; reflexivity)
              Hparse)
    as (d & i & Hd & Hi & Hget).
  assert (Sample.cramped_record !! "domain" = Some (VStr (py "defense"))) as Hd'
    by (vm_compute; reflexivity).
  assert (Sample.cramped_record !! "id" = Some (VStr (py "_0f8fad5b"))) as Hi'
    by (vm_compute; reflexivity).
  rewrite Hd' in Hd. injection Hd as <-. rewrite Hi' in Hi. injection Hi as <-.
  rewrite Hmain in Hget. apply Hget.
  intros E' content' b' Hin Hb' _ _.
  unfold Sample.batch in Hin.
  apply elem_of_cons in Hin as [[= -> ->]|Hin].
  - vm_compute in Hb'. discriminate Hb'.
  - apply list_elem_of_singleton in Hin as [= -> ->].
    rewrite Hparse in Hb'. by injection Hb' as <-.
Defined.
